(** * functional-layers: network composition, order interpolation and
      basis expansion

    A shallow embedding of
      - [src/high_order_layers_torch/networks.py]
          ([HighOrderMLP.__init__],
           [HighOrderFullyConvolutionalNetwork.__init__],
           [interpolate_high_order_mlp]; the [forward] of both networks;
           the methods of [VanillaVAE]) and
      - [src/functional_layers/FunctionalConvolution.py]
          ([Expansion2d.__init__] and [Expansion2d.__call__];
           [PolynomialConvolution2d] and [FourierConvolution2d]),
    followed by the properties of these functions.

    Python objects are modelled with an explicit identity ([module_id]), so
    that "the same instance" and "a fresh instance" are different things, as
    they are for [torch.nn.Module.modules()], which yields every module
    object once. Code that may raise runs in a state-and-exception monad. *)

From Stdlib Require Import ZArith Floats Lia ArithRing.
From stdpp Require Import base option list gmap strings.

Set Default Proof Using "Type".

(* ================================================================== *)
(** * Part I: the model                                                 *)
(* ================================================================== *)

(** ** Python values and exceptions *)

(** The two kinds of Python object that the validation code compares. *)
Inductive pyobj : Type :=
  | PyInt (z : Z)
  | PyBool (b : bool).

(** [len(l)] *)
Definition py_len {A : Type} (l : list A) : Z := Z.of_nat (length l).

(** [v is False]: identity with the singleton [False]. An [int] is never
    that object, whatever its value. *)
Definition py_is_False (v : pyobj) : bool :=
  match v with
  | PyBool false => true
  | _ => false
  end.

(** [x or y] for [x] an optional integer: [None] and [0] are falsy. *)
Definition py_or (x : option Z) (y : Z) : Z :=
  match x with
  | None => y
  | Some v => if (v =? 0)%Z then y else v
  end.

(** The three [raise ValueError(...)] sites of the convolutional network's
    constructor, in source order. *)
Inductive value_error : Type :=
  | ChannelsTooShort
  | ListsNotSameSize
  | ChannelsNotOneMore.

Inductive exn : Type :=
  | ValueError (site : value_error)
  | IndexError
  | ExternalError (origin : string).

(** ** State and exceptions *)

(** A computation over a mutable state [S] that returns or raises. The state
    reached is kept in both cases: what was mutated before a [raise] stays
    mutated. *)
Definition Eff (S A : Type) : Type := S -> (exn + A) * S.

Definition eff_ret {S A : Type} (a : A) : Eff S A := fun s => (inr a, s).

Definition eff_bind {S A B : Type} (m : Eff S A) (k : A -> Eff S B) : Eff S B :=
  fun s =>
    match m s with
    | (inr a, s') => k a s'
    | (inl e, s') => (inl e, s')
    end.

Definition raise {S A : Type} (e : exn) : Eff S A := fun s => (inl e, s).

Declare Scope eff_scope.
Delimit Scope eff_scope with eff.
Notation "x <- m ;; k" := (eff_bind m (fun x => k))
  (at level 100, m at next level, right associativity) : eff_scope.
Notation "m ;;; k" := (eff_bind m (fun _ => k))
  (at level 100, right associativity) : eff_scope.

(** [l[i]] for an index produced by [range]: [IndexError] out of range. *)
Definition py_index {S A : Type} (l : list A) (i : nat) : Eff S A :=
  match l !! i with
  | Some x => eff_ret x
  | None => raise IndexError
  end.


(** ** Modules *)

(** Keyword arguments of a call of the factory [high_order_fc_layers]. *)
Record fc_args : Type := FcArgs {
  fc_layer_type : string;
  fc_n : Z;
  fc_in_features : Z;
  fc_out_features : Z;
  fc_segments : option Z;
  fc_rescale_output : bool;
  fc_scale : float;
  fc_periodicity : option float;
}.

(** Keyword arguments of a call of [high_order_convolution_layers]. *)
Record conv_args : Type := ConvArgs {
  conv_layer_type : string;
  conv_n : Z;
  conv_in_channels : Z;
  conv_out_channels : Z;
  conv_kernel_size : Z;
  conv_segments : Z;
  conv_rescale_output : bool;
  conv_periodicity : option float;
}.

(** The class of a module object: the container [nn.Sequential], a layer
    returned by one of the factories (with the arguments it was built
    from), an instance of the class passed as [non_linearity], or any other
    module supplied by the caller (a normalization, for instance). *)
Inductive module_class : Type :=
  | Sequential
  | HighOrderFc (a : fc_args)
  | HighOrderConv (a : conv_args)
  | NonLinearity (cls : string)
  | UserModule (cls : string).

(** An [nn.Module] object: its identity, its class and its registered
    children ([_modules], in insertion order; one object may be registered
    under several names). *)
#[warnings="-register-all"]
Inductive module : Type :=
  | Module (i : nat) (c : module_class) (children : list module).

Definition module_id (m : module) : nat :=
  match m with Module i _ _ => i end.

Definition module_cls (m : module) : module_class :=
  match m with Module _ c _ => c end.

Definition module_children (m : module) : list module :=
  match m with Module _ _ ch => ch end.

(** [isinstance(m, nn.Sequential)] *)
Definition is_Sequential (m : module) : bool :=
  match module_cls m with
  | Sequential => true
  | _ => false
  end.

(** A weight-bearing layer: one built by a layer factory. *)
Definition is_weight_layer (m : module) : bool :=
  match module_cls m with
  | HighOrderFc _ | HighOrderConv _ => true
  | _ => false
  end.

(** An instance of the nonlinearity class [cls], as [cls()] returns it. *)
Definition is_nonlinearity (cls : string) (m : module) : Prop :=
  module_cls m = NonLinearity cls /\ module_children m = [].

(** The basis order a layer was built with. *)
Definition layer_order (m : module) : option Z :=
  match module_cls m with
  | HighOrderFc a => Some (fc_n a)
  | HighOrderConv a => Some (conv_n a)
  | _ => None
  end.

(** [torch.nn.Module.named_modules(memo)]: the module itself, then its
    children's modules, depth first; an object whose identity is already in
    [memo] is not yielded again. *)
Fixpoint named_modules (m : module) (memo : gset nat) : list module * gset nat :=
  match m with
  | Module i _ children =>
      if decide (i ∈ memo) then ([], memo)
      else
        let fix walk (l : list module) (memo : gset nat) : list module * gset nat :=
          match l with
          | [] => ([], memo)
          | x :: l' =>
              let '(a, memo1) := named_modules x memo in
              let '(b, memo2) := walk l' memo1 in
              (a ++ b, memo2)
          end in
        let '(sub, memo') := walk children ({[ i ]} ∪ memo) in
        (m :: sub, memo')
  end.

(** [m.modules()] *)
Definition modules (m : module) : list module := fst (named_modules m ∅).

(** ** The object heap of a constructor call *)

(** [next_id] is the identity the next object created will get; [built]
    lists the layers the factories have built so far, oldest first. *)
Record heap : Type := Heap {
  next_id : nat;
  built : list module;
}.

(** Creating an object. *)
Definition fresh : Eff heap nat :=
  fun h => (inr (next_id h), {| next_id := S (next_id h); built := built h |}).

Definition record_built (m : module) : Eff heap unit :=
  fun h => (inr tt, {| next_id := next_id h; built := built h ++ [m] |}).

(** The layer factories of [high_order_layers_torch.layers] are external to
    the files modelled here. A factory either rejects its arguments by
    raising, or returns a new layer object; which arguments it accepts is a
    parameter of the development. *)
Class LayerFactory : Type := {
  fc_accepts : fc_args -> bool;
  conv_accepts : conv_args -> bool;
}.

(** Modelled from the spec: the factory [high_order_fc_layers] of
    [high_order_layers_torch.layers], which is not among the source files.
    Section 6: given its arguments the factory "returns a constructed
    Functional layer"; here, a new module object without children that
    records the arguments of the call. *)
Definition high_order_fc_layers `{LayerFactory} (a : fc_args) : Eff heap module :=
  if fc_accepts a then
    (i <- fresh ;;
     let layer := Module i (HighOrderFc a) [] in
     record_built layer ;;;
     eff_ret layer)%eff
  else raise (ExternalError "high_order_fc_layers").

(** Modelled from the spec: the factory [high_order_convolution_layers] of
    the same module, in the same way. *)
Definition high_order_convolution_layers `{LayerFactory} (a : conv_args) : Eff heap module :=
  if conv_accepts a then
    (i <- fresh ;;
     let layer := Module i (HighOrderConv a) [] in
     record_built layer ;;;
     eff_ret layer)%eff
  else raise (ExternalError "high_order_convolution_layers").

(** [non_linearity()]: a new instance of the class. *)
Definition instantiate (cls : string) : Eff heap module :=
  (i <- fresh ;; eff_ret (Module i (NonLinearity cls) []))%eff.

(** [nn.Sequential( *layer_list )]: a new container whose children are the
    entries of [layer_list], in order. *)
Definition nn_Sequential (layer_list : list module) : Eff heap module :=
  (i <- fresh ;; eff_ret (Module i Sequential layer_list))%eff.

(** ** HighOrderMLP *)

Record mlp_args : Type := MlpArgs {
  mlp_layer_type : string;
  mlp_n : Z;
  mlp_in_width : Z;
  mlp_out_width : Z;
  mlp_hidden_layers : Z;
  mlp_hidden_width : Z;
  mlp_scale : float;
  mlp_n_in : option Z;
  mlp_n_out : option Z;
  mlp_n_hidden : option Z;
  mlp_rescale_output : bool;
  mlp_periodicity : option float;
  mlp_non_linearity : option string;
  mlp_in_segments : option Z;
  mlp_out_segments : option Z;
  mlp_hidden_segments : option Z;
  mlp_normalization : option module;
}.

Record HighOrderMLP : Type := { model : module }.

(** [if normalization is not None: layer_list.append(normalization)]: the
    object itself is appended. *)
Definition append_normalization (normalization : option module)
    (layer_list : list module) : list module :=
  match normalization with
  | Some nm => layer_list ++ [nm]
  | None => layer_list
  end.

(** [if non_linearity is not None: layer_list.append(non_linearity())] *)
Definition append_non_linearity (non_linearity : option string)
    (layer_list : list module) : Eff heap (list module) :=
  match non_linearity with
  | Some cls => (nl <- instantiate cls ;; eff_ret (layer_list ++ [nl]))%eff
  | None => eff_ret layer_list
  end.

Definition hidden_layer_args (a : mlp_args) (n_hidden : Z) : fc_args :=
  {| fc_layer_type := mlp_layer_type a;
     fc_n := n_hidden;
     fc_in_features := mlp_hidden_width a;
     fc_out_features := mlp_hidden_width a;
     fc_segments := mlp_hidden_segments a;
     fc_rescale_output := mlp_rescale_output a;
     fc_scale := mlp_scale a;
     fc_periodicity := mlp_periodicity a |}.

(** The body of [for i in range(hidden_layers)], run [k] times. *)
Fixpoint hidden_loop `{LayerFactory} (a : mlp_args) (n_hidden : Z) (k : nat)
    (layer_list : list module) : Eff heap (list module) :=
  match k with
  | O => eff_ret layer_list
  | S k' =>
      (let layer_list := append_normalization (mlp_normalization a) layer_list in
       layer_list <- append_non_linearity (mlp_non_linearity a) layer_list ;;
       hidden_layer <- high_order_fc_layers (hidden_layer_args a n_hidden) ;;
       hidden_loop a n_hidden k' (layer_list ++ [hidden_layer]))%eff
  end.

(** [HighOrderMLP.__init__]. The [print] of the layer list is left out. *)
Definition HighOrderMLP_init `{LayerFactory} (a : mlp_args) : Eff heap HighOrderMLP :=
  (let layer_list := [] in
   let n_in := py_or (mlp_n_in a) (mlp_n a) in
   let n_hidden := py_or (mlp_n_hidden a) (mlp_n a) in
   let n_out := py_or (mlp_n_out a) (mlp_n a) in
   input_layer <- high_order_fc_layers
     {| fc_layer_type := mlp_layer_type a;
        fc_n := n_in;
        fc_in_features := mlp_in_width a;
        fc_out_features := mlp_hidden_width a;
        fc_segments := mlp_in_segments a;
        fc_rescale_output := mlp_rescale_output a;
        fc_scale := mlp_scale a;
        fc_periodicity := mlp_periodicity a |} ;;
   let layer_list := layer_list ++ [input_layer] in
   layer_list <- hidden_loop a n_hidden (Z.to_nat (mlp_hidden_layers a)) layer_list ;;
   layer_list <- append_non_linearity (mlp_non_linearity a) layer_list ;;
   layer_list <- append_non_linearity (mlp_non_linearity a) layer_list ;;
   output_layer <- high_order_fc_layers
     {| fc_layer_type := mlp_layer_type a;
        fc_n := n_out;
        fc_in_features := mlp_hidden_width a;
        fc_out_features := mlp_out_width a;
        fc_segments := mlp_out_segments a;
        fc_rescale_output := mlp_rescale_output a;
        fc_scale := mlp_scale a;
        fc_periodicity := mlp_periodicity a |} ;;
   let layer_list := layer_list ++ [output_layer] in
   seq <- nn_Sequential layer_list ;;
   eff_ret {| model := seq |})%eff.

(** ** The layer list of HighOrderMLP in closed form *)

(** The entries one [if non_linearity is not None: ...] statement appends
    when the next free identity is [i]. *)
Definition non_linearity_entries (non_linearity : option string) (i : nat) : list module :=
  match non_linearity with
  | Some cls => [Module i (NonLinearity cls) []]
  | None => []
  end.

Definition non_linearity_count (non_linearity : option string) : nat :=
  match non_linearity with
  | Some _ => 1
  | None => 0
  end.

(** One turn of the hidden-layer loop of [HighOrderMLP.__init__], started
    with next free identity [i]: the entries put before the hidden layer,
    and the hidden layer. *)
Definition hidden_block (a : mlp_args) (n_hidden : Z) (i : nat) : list module * module :=
  (option_list (mlp_normalization a) ++ non_linearity_entries (mlp_non_linearity a) i,
   Module (i + non_linearity_count (mlp_non_linearity a))
          (HighOrderFc (hidden_layer_args a n_hidden)) []).

Fixpoint hidden_blocks (a : mlp_args) (n_hidden : Z) (k i : nat) : list (list module * module) :=
  match k with
  | O => []
  | S k' =>
      hidden_block a n_hidden i
        :: hidden_blocks a n_hidden k' (i + non_linearity_count (mlp_non_linearity a) + 1)
  end.

(** The entries a block contributes to the layer list. *)
Definition block_entries (b : list module * module) : list module := b.1 ++ [b.2].

(** ** HighOrderFullyConvolutionalNetwork *)

(** [layer_type] may be a list of strings or one string; indexing and [len]
    treat a string as the list of its one-character strings. *)
Record conv_net_args : Type := ConvNetArgs {
  cn_layer_type : list string;
  cn_n : list Z;
  cn_channels : list Z;
  cn_segments : list Z;
  cn_kernel_size : list Z;
  cn_rescale_output : bool;
  cn_periodicity : option float;
  cn_normalization : option module;
}.

Record HighOrderFullyConvolutionalNetwork : Type := { conv_model : module }.

(** [len(channels) == len(segments) == len(kernel_size) == len(layer_type)
     == len(n) is False]: a comparison chain is the conjunction of its
    links, and its last link is [len(n) is False]. *)
Definition lists_not_same_size (a : conv_net_args) : bool :=
  (py_len (cn_channels a) =? py_len (cn_segments a))%Z
  && (py_len (cn_segments a) =? py_len (cn_kernel_size a))%Z
  && (py_len (cn_kernel_size a) =? py_len (cn_layer_type a))%Z
  && (py_len (cn_layer_type a) =? py_len (cn_n a))%Z
  && py_is_False (PyInt (py_len (cn_n a))).

(** [len(channels) == len(n) + 1 is False] *)
Definition channels_not_one_more (a : conv_net_args) : bool :=
  (py_len (cn_channels a) =? py_len (cn_n a) + 1)%Z
  && py_is_False (PyInt (py_len (cn_n a) + 1)).

(** The body of [for i in range(len(channels) - 1)], over the indices
    [indices]. *)
Fixpoint conv_loop `{LayerFactory} (a : conv_net_args) (indices : list nat)
    (layer_list : list module) : Eff heap (list module) :=
  match indices with
  | [] => eff_ret layer_list
  | i :: rest =>
      (let layer_list := append_normalization (cn_normalization a) layer_list in
       layer_type_i <- py_index (cn_layer_type a) i ;;
       n_i <- py_index (cn_n a) i ;;
       in_channels <- py_index (cn_channels a) i ;;
       out_channels <- py_index (cn_channels a) (i + 1) ;;
       kernel_size_i <- py_index (cn_kernel_size a) i ;;
       segments_i <- py_index (cn_segments a) i ;;
       layer <- high_order_convolution_layers
         {| conv_layer_type := layer_type_i;
            conv_n := n_i;
            conv_in_channels := in_channels;
            conv_out_channels := out_channels;
            conv_kernel_size := kernel_size_i;
            conv_segments := segments_i;
            conv_rescale_output := cn_rescale_output a;
            conv_periodicity := cn_periodicity a |} ;;
       conv_loop a rest (layer_list ++ [layer]))%eff
  end.

(** [HighOrderFullyConvolutionalNetwork.__init__] *)
Definition HighOrderFullyConvolutionalNetwork_init `{LayerFactory}
    (a : conv_net_args) : Eff heap HighOrderFullyConvolutionalNetwork :=
  if (py_len (cn_channels a) <? 2)%Z then raise (ValueError ChannelsTooShort)
  else if lists_not_same_size a then raise (ValueError ListsNotSameSize)
  else if channels_not_one_more a then raise (ValueError ChannelsNotOneMore)
  else
    (let layer_list := [] in
     layer_list <- conv_loop a (seq 0 (length (cn_channels a) - 1)) layer_list ;;
     seq <- nn_Sequential layer_list ;;
     eff_ret {| conv_model := seq |})%eff.

(** ** The Order-Interpolation Engine *)


(** [[module for module in network.model.modules()
      if not isinstance(module, nn.Sequential)]] *)
Definition non_sequential_modules (network_model : module) : list module :=
  List.filter (fun m => negb (is_Sequential m)) (modules network_model).

(** [zip(layers_in, layers_out)] *)
Definition layer_pairs (network_in network_out : HighOrderMLP) : list (module * module) :=
  let layers_in := non_sequential_modules (model network_in) in
  let layers_out := non_sequential_modules (model network_out) in
  zip layers_in layers_out.


(** The weight-bearing layers of a network, in traversal order. *)
Definition weight_layers (network : HighOrderMLP) : list module :=
  List.filter is_weight_layer (non_sequential_modules (model network)).

(** ** A symbolic weight store *)




(** ** Tensors and Expansion2d *)

Section Tensor.
Context {A : Type}.

(** A tensor: its shape and its elements in row-major order, offset by
    offset. Two tensors with the same shape and the same elements at the
    offsets below [numel] are the same tensor to every operation here. *)
Record tensor : Type := Tensor {
  shape : list nat;
  mem : nat -> A;
}.

Definition numel (s : list nat) : nat := foldr Nat.mul 1 s.

(** Row-major offset of a multi-index: the stride of an axis is the product
    of the sizes of the axes after it. *)
Fixpoint offset (s idx : list nat) : nat :=
  match s, idx with
  | _ :: s', i :: idx' => i * numel s' + offset s' idx'
  | _, _ => 0
  end.

(** The multi-index of an offset. *)
Fixpoint unravel (s : list nat) (off : nat) : list nat :=
  match s with
  | [] => []
  | _ :: s' => off / numel s' :: unravel s' (off mod numel s')
  end.

(** [t[i0, i1, ...]] *)
Definition get (t : tensor) (idx : list nat) : A := mem t (offset (shape t) idx).

Definition in_bounds (s idx : list nat) : Prop := Forall2 lt idx s.

(** The index read by [t.permute(dims)[idx']]: the index [idx] with
    [idx[dims[k]] = idx'[k]] for every [k]. *)
Definition source_index (dims idx' : list nat) : list nat :=
  foldr (fun '(d, i) acc => <[ d := i ]> acc) (replicate (length dims) 0) (zip dims idx').

(** [t.permute( *dims )]: axis [k] of the result is axis [dims[k]] of [t].
    [RuntimeError] unless [dims] names every axis of [t] once. *)
Definition permute (dims : list nat) (t : tensor) : exn + tensor :=
  if bool_decide (length dims = length (shape t)
                  /\ Forall (fun d => d < length (shape t)) dims
                  /\ NoDup dims)
  then
    let s' := map (fun d => nth d (shape t) 0) dims in
    inr {| shape := s';
           mem := fun off' => get t (source_index dims (unravel s' off')) |}
  else inl (ExternalError "RuntimeError").

(** [torch.reshape(t, s)]: the same elements in the same row-major order
    under a new shape. [RuntimeError] when the sizes differ. *)
Definition reshape (s : list nat) (t : tensor) : exn + tensor :=
  if bool_decide (numel s = numel (shape t))
  then inr {| shape := s; mem := mem t |}
  else inl (ExternalError "RuntimeError").

(** [Expansion2d.__call__]; [basis] is the callable stored by
    [Expansion2d.__init__]. *)
Definition Expansion2d_call (basis : tensor -> tensor) (inputs : tensor) : exn + tensor :=
  let res := basis inputs in
  match permute [1; 3; 4; 2; 0] res with
  | inl e => inl e
  | inr res =>
      match shape res with
      | [s0; s1; s2; s3; s4] =>
          match reshape [s0; s1; s2; s3 * s4] res with
          | inl e => inl e
          | inr res => permute [0; 3; 1; 2] res
          end
      | _ => inl IndexError
      end
  end.

(** What it means for the callable [basis] to be a basis of order [n] with
    coefficient functions [coef 0 .. coef (n-1)]: applied to a tensor, it
    returns the [n] element-wise images stacked along a new leading axis
    (the layout that [permute(1, 3, 4, 2, 0)] takes apart). *)
Definition basis_of_order (basis : tensor -> tensor) (n : nat) (coef : nat -> A -> A) : Prop :=
  forall x : tensor,
    shape (basis x) = n :: shape x
    /\ forall k idx, k < n -> in_bounds (shape x) idx ->
         get (basis x) (k :: idx) = coef k (get x idx).

(** A basis callable built from coefficient functions: [torch.stack] of the
    [n] tensors [coef k (x)]. *)
Definition stack_basis (n : nat) (coef : nat -> A -> A) (x : tensor) : tensor :=
  {| shape := n :: shape x;
     mem := fun off => coef (off / numel (shape x)) (mem x (off mod numel (shape x))) |}.

End Tensor.

Arguments tensor A : clear implicits.

(** ** Inputs used to exercise the theorems *)

(** A factory that accepts every argument record. *)
Definition accept_all : LayerFactory :=
  {| fc_accepts := fun _ => true; conv_accepts := fun _ => true |}.

(** A normalization object that exists before the constructor runs. *)
Definition layer_norm : module := Module 0 (UserModule "LayerNorm") [].

Definition heap0 : heap := {| next_id := 1; built := [] |}.

Definition mlp_example (hidden_layers : Z) (non_linearity : option string)
    (normalization : option module) : mlp_args :=
  {| mlp_layer_type := "polynomial";
     mlp_n := 3;
     mlp_in_width := 2;
     mlp_out_width := 1;
     mlp_hidden_layers := hidden_layers;
     mlp_hidden_width := 4;
     mlp_scale := 2.0;
     mlp_n_in := None;
     mlp_n_out := None;
     mlp_n_hidden := None;
     mlp_rescale_output := false;
     mlp_periodicity := None;
     mlp_non_linearity := non_linearity;
     mlp_in_segments := None;
     mlp_out_segments := None;
     mlp_hidden_segments := None;
     mlp_normalization := normalization |}.

Definition conv_example (n : list Z) (channels : list Z)
    (normalization : option module) : conv_net_args :=
  {| cn_layer_type := ["polynomial"; "polynomial"];
     cn_n := n;
     cn_channels := channels;
     cn_segments := [1; 1]%Z;
     cn_kernel_size := [3; 3]%Z;
     cn_rescale_output := false;
     cn_periodicity := None;
     cn_normalization := normalization |}.


(** A 1 x 2 x 1 x 2 input whose element at offset [o] is [o], and the
    coefficient functions [k, v |-> 10 * k + v]. *)
Definition expansion_input : tensor Z :=
  {| shape := [1; 2; 1; 2]; mem := Z.of_nat |}.

Definition expansion_coef (k : nat) (v : Z) : Z := (10 * Z.of_nat k + v)%Z.

(** ** The arguments of each layer *)

(** The keyword arguments of the factory call for layer [i] of a
    convolutional network, read from the lists at index [i] (and [i + 1]
    for the output channels); [None] when one of the reads is out of
    range. *)
Definition conv_layer_args (a : conv_net_args) (i : nat) : option conv_args :=
  layer_type_i ← cn_layer_type a !! i;
  n_i ← cn_n a !! i;
  in_channels ← cn_channels a !! i;
  out_channels ← cn_channels a !! (i + 1);
  kernel_size_i ← cn_kernel_size a !! i;
  segments_i ← cn_segments a !! i;
  Some {| conv_layer_type := layer_type_i;
          conv_n := n_i;
          conv_in_channels := in_channels;
          conv_out_channels := out_channels;
          conv_kernel_size := kernel_size_i;
          conv_segments := segments_i;
          conv_rescale_output := cn_rescale_output a;
          conv_periodicity := cn_periodicity a |}.

(** The keyword arguments of the calls that build the input layer and the
    output layer of a [HighOrderMLP]. *)
Definition input_layer_args (a : mlp_args) : fc_args :=
  {| fc_layer_type := mlp_layer_type a;
     fc_n := py_or (mlp_n_in a) (mlp_n a);
     fc_in_features := mlp_in_width a;
     fc_out_features := mlp_hidden_width a;
     fc_segments := mlp_in_segments a;
     fc_rescale_output := mlp_rescale_output a;
     fc_scale := mlp_scale a;
     fc_periodicity := mlp_periodicity a |}.

Definition output_layer_args (a : mlp_args) : fc_args :=
  {| fc_layer_type := mlp_layer_type a;
     fc_n := py_or (mlp_n_out a) (mlp_n a);
     fc_in_features := mlp_hidden_width a;
     fc_out_features := mlp_out_width a;
     fc_segments := mlp_out_segments a;
     fc_rescale_output := mlp_rescale_output a;
     fc_scale := mlp_scale a;
     fc_periodicity := mlp_periodicity a |}.

(** The arguments a weight-bearing layer of a [HighOrderMLP] was built
    from. *)
Definition fc_args_of (m : module) : option fc_args :=
  match module_cls m with
  | HighOrderFc a => Some a
  | _ => None
  end.

Definition conv_args_of (m : module) : option conv_args :=
  match module_cls m with
  | HighOrderConv a => Some a
  | _ => None
  end.

(** ** Further inputs used to exercise the theorems *)

(** A factory that rejects every argument record. *)
Definition reject_all : LayerFactory :=
  {| fc_accepts := fun _ => false; conv_accepts := fun _ => false |}.

(** [mlp_example] with per-stage orders. *)
Definition mlp_example_orders (n_in n_hidden n_out : option Z) : mlp_args :=
  {| mlp_layer_type := "polynomial";
     mlp_n := 3;
     mlp_in_width := 2;
     mlp_out_width := 1;
     mlp_hidden_layers := 1;
     mlp_hidden_width := 4;
     mlp_scale := 2.0;
     mlp_n_in := n_in;
     mlp_n_out := n_out;
     mlp_n_hidden := n_hidden;
     mlp_rescale_output := false;
     mlp_periodicity := None;
     mlp_non_linearity := None;
     mlp_in_segments := Some 1%Z;
     mlp_out_segments := Some 3%Z;
     mlp_hidden_segments := Some 2%Z;
     mlp_normalization := None |}.

(** [mlp_example] with the global order [n]. *)
Definition mlp_example_of_order (n : Z) (hidden_layers : Z) (non_linearity : option string)
    (normalization : option module) : mlp_args :=
  {| mlp_layer_type := "polynomial";
     mlp_n := n;
     mlp_in_width := 2;
     mlp_out_width := 1;
     mlp_hidden_layers := hidden_layers;
     mlp_hidden_width := 4;
     mlp_scale := 2.0;
     mlp_n_in := None;
     mlp_n_out := None;
     mlp_n_hidden := None;
     mlp_rescale_output := false;
     mlp_periodicity := None;
     mlp_non_linearity := non_linearity;
     mlp_in_segments := None;
     mlp_out_segments := None;
     mlp_hidden_segments := None;
     mlp_normalization := normalization |}.

(** A heap in which the objects 0 to 19 exist. *)
Definition heap20 : heap := {| next_id := 20; built := [] |}.

(** ** The traversal of [modules()] *)

(** The traversal of the children in [named_modules]. *)
Definition walk_children : list module -> gset nat -> list module * gset nat :=
  fix walk (l : list module) (memo : gset nat) : list module * gset nat :=
    match l with
    | [] => ([], memo)
    | x :: l' =>
        let '(a, memo1) := named_modules x memo in
        let '(b, memo2) := walk l' memo1 in
        (a ++ b, memo2)
    end.

(** The entries of [l] whose identity is neither in [memo] nor that of an
    earlier entry: what the traversal yields for children without children
    of their own. *)
Fixpoint first_visits (l : list module) (memo : gset nat) : list module :=
  match l with
  | [] => []
  | x :: l' =>
      if decide (module_id x ∈ memo) then first_visits l' memo
      else x :: first_visits l' ({[ module_id x ]} ∪ memo)
  end.

(** Every identity in [memo] is below [b] or at least [top]. *)
Definition seen_below (memo : gset nat) (b top : nat) : Prop :=
  forall x, x ∈ memo -> x < b \/ top <= x.

(** ** Normalization objects *)

(** The arguments [a] with no normalization. *)
Definition without_normalization (a : mlp_args) : mlp_args :=
  {| mlp_layer_type := mlp_layer_type a;
     mlp_n := mlp_n a;
     mlp_in_width := mlp_in_width a;
     mlp_out_width := mlp_out_width a;
     mlp_hidden_layers := mlp_hidden_layers a;
     mlp_hidden_width := mlp_hidden_width a;
     mlp_scale := mlp_scale a;
     mlp_n_in := mlp_n_in a;
     mlp_n_out := mlp_n_out a;
     mlp_n_hidden := mlp_n_hidden a;
     mlp_rescale_output := mlp_rescale_output a;
     mlp_periodicity := mlp_periodicity a;
     mlp_non_linearity := mlp_non_linearity a;
     mlp_in_segments := mlp_in_segments a;
     mlp_out_segments := mlp_out_segments a;
     mlp_hidden_segments := mlp_hidden_segments a;
     mlp_normalization := None |}.

(** A normalization object that has no children and existed before the
    constructor was called. *)
Definition plain_normalization (a : mlp_args) (h : heap) : Prop :=
  forall nm, mlp_normalization a = Some nm ->
    module_children nm = [] /\ module_id nm < next_id h.

(** A normalization object that the engine can tell from a layer: it has
    no children, existed before the constructor was called, and is neither
    a container nor a weight-bearing layer. *)
Definition normalization_marker (a : mlp_args) (h : heap) : Prop :=
  forall nm, mlp_normalization a = Some nm ->
    module_children nm = [] /\ module_id nm < next_id h
    /\ is_Sequential nm = false /\ is_weight_layer nm = false.

(** ** The functional convolution layers *)

(** What [Expansion2d.__init__] and the code it guards can raise. *)
Inductive expansion_exn : Type :=
  | BasisNotDefined
  | Raised (e : exn).

Section FunctionalConvolution.
Context {A K : Type}.

(** An [Expansion2d] object: the basis it stores. *)
Record Expansion2d : Type := { basis : tensor A -> tensor A }.

(** [Expansion2d.__init__]: [basis] defaults to [None], and [None] is
    refused with [Exception('You must define the basis function in
    ExpansionLayer2D')]. *)
Definition Expansion2d_init (basis : option (tensor A -> tensor A))
    : expansion_exn + Expansion2d :=
  match basis with
  | None => inl BasisNotDefined
  | Some b => inr {| basis := b |}
  end.

(** A [torch.nn.Conv2d] object: the [in_channels] it was built with and its
    other keyword arguments. *)
Record Conv2d : Type := {
  conv2d_in_channels : nat;
  conv2d_kwargs : K;
}.

(** The parts of the layers that are not in the source files: the classes
    [LagrangeExpand] and [FourierExpand], whose instances are callables on
    tensors, and [torch.nn.Conv2d], which accepts or rejects its arguments
    and whose [forward] returns or raises. *)
Class ConvolutionParts : Type := {
  LagrangeExpand : nat -> tensor A -> tensor A;
  FourierExpand : nat -> tensor A -> tensor A;
  conv2d_accepts : nat -> K -> bool;
  conv2d_forward : Conv2d -> tensor A -> exn + tensor A;
}.

Context {parts : ConvolutionParts}.

(** [Conv2d(in_channels=..., **kwargs)] *)
Definition Conv2d_init (in_channels : nat) (kwargs : K) : expansion_exn + Conv2d :=
  if conv2d_accepts in_channels kwargs
  then inr {| conv2d_in_channels := in_channels; conv2d_kwargs := kwargs |}
  else inl (Raised (ExternalError "Conv2d")).

(** A [PolynomialConvolution2d] or [FourierConvolution2d] object. *)
Record FunctionalConvolution2d : Type := {
  poly : Expansion2d;
  conv : Conv2d;
}.

(** [PolynomialConvolution2d.__init__(n, in_channels, *args, **kwargs)]:
    the positional arguments after the first two are not used. *)
Definition PolynomialConvolution2d_init {P : Type} (n in_channels : nat) (args : list P)
    (kwargs : K) : expansion_exn + FunctionalConvolution2d :=
  match Expansion2d_init (Some (LagrangeExpand n)) with
  | inl e => inl e
  | inr poly =>
      match Conv2d_init (n * in_channels) kwargs with
      | inl e => inl e
      | inr conv => inr {| poly := poly; conv := conv |}
      end
  end.

(** [FourierConvolution2d.__init__(n, in_channels, *args, **kwargs)] *)
Definition FourierConvolution2d_init {P : Type} (n in_channels : nat) (args : list P)
    (kwargs : K) : expansion_exn + FunctionalConvolution2d :=
  match Expansion2d_init (Some (FourierExpand n)) with
  | inl e => inl e
  | inr poly =>
      match Conv2d_init (n * in_channels) kwargs with
      | inl e => inl e
      | inr conv => inr {| poly := poly; conv := conv |}
      end
  end.

(** [forward] of both classes: [x = self.poly(x); out = self.conv(x)]. *)
Definition FunctionalConvolution2d_forward (layer : FunctionalConvolution2d)
    (x : tensor A) : exn + tensor A :=
  match Expansion2d_call (basis (poly layer)) x with
  | inl e => inl e
  | inr x => conv2d_forward (conv layer) x
  end.

End FunctionalConvolution.

(** A basis family and a [Conv2d] to exercise the theorems: both expansion
    classes stack the coefficients [expansion_coef], and the convolution
    accepts every argument and returns its input. *)
Definition example_parts : ConvolutionParts (A := Z) (K := unit) :=
  {| LagrangeExpand := fun n => stack_basis n expansion_coef;
     FourierExpand := fun n => stack_basis n expansion_coef;
     conv2d_accepts := fun _ _ => true;
     conv2d_forward := fun _ x => inr x |}.

(** The layer that both constructors return for [n = 2] and
    [in_channels = 2] with these parts. *)
Definition example_layer : FunctionalConvolution2d (A := Z) (K := unit) :=
  {| poly := {| basis := stack_basis 2 expansion_coef |};
     conv := {| conv2d_in_channels := 4; conv2d_kwargs := tt |} |}.

(** ** [forward] *)

(** Calling a module on a value: the [forward] of the layers, of the
    nonlinearity and of the normalization are not in the source files. *)
Class ModuleCall (T : Type) : Type := {
  call_module : module -> T -> exn + T;
}.

Section ForwardModel.
Context {T : Type} `{ModuleCall T}.

(** [nn.Sequential.forward]: [for module in self: input = module(input)];
    an exception ends the loop. *)
Fixpoint run_modules (l : list module) (input : T) : exn + T :=
  match l with
  | [] => inr input
  | m :: l' =>
      match call_module m input with
      | inl e => inl e
      | inr output => run_modules l' output
      end
  end.

(** [HighOrderMLP.forward]: [return self.model(x)] *)
Definition HighOrderMLP_forward (net : HighOrderMLP) (x : T) : exn + T :=
  run_modules (module_children (model net)) x.

(** [HighOrderFullyConvolutionalNetwork.forward]: [return self.model(x)] *)
Definition HighOrderFullyConvolutionalNetwork_forward
    (net : HighOrderFullyConvolutionalNetwork) (x : T) : exn + T :=
  run_modules (module_children (conv_model net)) x.

(** One stage after the other: for each layer, the normalization (if any)
    and then the layer. *)
Fixpoint run_stages (normalization : option module) (layers : list module) (x : T)
    : exn + T :=
  match layers with
  | [] => inr x
  | layer :: rest =>
      match run_modules (option_list normalization) x with
      | inl e => inl e
      | inr y =>
          match call_module layer y with
          | inl e => inl e
          | inr z => run_stages normalization rest z
          end
      end
  end.

End ForwardModel.

(** Calls on integers to exercise the theorems: a layer multiplies by its
    order and subtracts 7 (or adds its order, for a convolution), the
    nonlinearity is the rectifier, and any other module refuses negative
    values and subtracts 1. *)
Definition example_call : ModuleCall Z :=
  {| call_module m x :=
       match module_cls m with
       | HighOrderFc a => inr (x * fc_n a - 7)%Z
       | HighOrderConv a => inr (x + conv_n a)%Z
       | NonLinearity _ => inr (Z.max 0 x)
       | UserModule cls => if (x <? 0)%Z then inl (ExternalError cls) else inr (x - 1)%Z
       | Sequential => inl (ExternalError "Sequential")
       end |}.

(** ** [VanillaVAE] *)

(** What the methods of [VanillaVAE] can raise: reading an attribute that
    was never set, a key that a dictionary does not have, a name that is
    bound nowhere, or one of the exceptions of [exn]. *)
Inductive vae_exn : Type :=
  | AttributeError (name : string)
  | KeyError (key : string)
  | NameError (name : string)
  | Other (e : exn).

(** Computations over the state [St] of the tensor library (its random
    generator, the parameters it allocates) that return or raise. *)
Definition VEff (St A : Type) : Type := St -> (vae_exn + A) * St.

Definition veff_ret {St A : Type} (a : A) : VEff St A := fun s => (inr a, s).

Definition veff_bind {St A B : Type} (m : VEff St A) (k : A -> VEff St B)
    : VEff St B :=
  fun s =>
    match m s with
    | (inr a, s') => k a s'
    | (inl e, s') => (inl e, s')
    end.

Definition veff_raise {St A : Type} (e : vae_exn) : VEff St A := fun s => (inl e, s).

(** A call into code that raises the exceptions of [exn]. *)
Definition lift {St A : Type} (m : Eff St A) : VEff St A :=
  fun s =>
    match m s with
    | (inr a, s') => (inr a, s')
    | (inl e, s') => (inl (Other e), s')
    end.

Declare Scope veff_scope.
Delimit Scope veff_scope with veff.
Notation "x <- m ;; k" := (veff_bind m (fun x => k))
  (at level 100, m at next level, right associativity) : veff_scope.
Notation "m ;;; k" := (veff_bind m (fun _ => k))
  (at level 100, right associativity) : veff_scope.

(** The names bound at the top level of [networks.py], by its imports and
    by its class and function definitions, in source order. *)
Definition module_globals : list string :=
  ["nn"; "Tensor";
   "high_order_convolution_layers"; "high_order_convolution_transpose_layers";
   "high_order_fc_layers";
   "Any"; "Callable"; "List"; "Union";
   "interpolate_polynomial_layer"; "torch";
   "HighOrderMLP"; "HighOrderFullyConvolutionalNetwork";
   "HighOrderFullyDeconvolutionalNetwork"; "VanillaVAE";
   "HighOrderMLPMixerBlock"; "interpolate_high_order_mlp"].

(** Reading, inside a method, a name that is neither local nor a builtin:
    [NameError] unless the module binds it. *)
Definition load_global {St : Type} (name : string) : VEff St unit :=
  if bool_decide (elem_of name module_globals)
  then veff_ret tt
  else veff_raise (NameError name).

(** [l[-1]] *)
Definition py_last {St A : Type} (l : list A) : VEff St A :=
  match last l with
  | Some x => veff_ret x
  | None => veff_raise (Other IndexError)
  end.

(** [l[i]] for a constant [i >= 0] *)
Definition py_item {St A : Type} (l : list A) (i : nat) : VEff St A :=
  match l !! i with
  | Some x => veff_ret x
  | None => veff_raise (Other IndexError)
  end.

(** [d[key]] for a dictionary with string keys *)
Definition py_getitem {St A : Type} (d : gmap string A) (key : string) : VEff St A :=
  match d !! key with
  | Some x => veff_ret x
  | None => veff_raise (KeyError key)
  end.

Section VAE.
Context {T M St : Type}.

(** The value of an attribute of a [VanillaVAE] object: the integer
    [latent_dim] or a module. *)
Inductive attr : Type :=
  | AttrInt (z : Z)
  | AttrModule (m : M).

(** A [VanillaVAE] object: the attributes that were set on it. *)
Definition object : Type := gmap string attr.

(** The parts that are not in the source files: [nn.Linear], calling a
    module, and the operations on tensors. Each returns or raises, and may
    change the state of the library. *)
Class TorchParts : Type := {
  Linear : Z -> Z -> Eff St M;
  module_forward : M -> T -> Eff St T;
  torch_flatten : T -> Z -> Eff St T;
  tensor_view : T -> list Z -> Eff St T;
  torch_exp : T -> Eff St T;
  torch_randn_like : T -> Eff St T;
  torch_randn : Z -> Z -> Eff St T;
  tensor_to : T -> Z -> Eff St T;
  torch_sum : T -> Z -> Eff St T;
  torch_mean : T -> Z -> Eff St T;
  mse_loss : T -> T -> Eff St T;
  scalar_mul : float -> T -> Eff St T;
  scalar_add : Z -> T -> Eff St T;
  tensor_pow : T -> Z -> Eff St T;
  tensor_add : T -> T -> Eff St T;
  tensor_sub : T -> T -> Eff St T;
  tensor_mul : T -> T -> Eff St T;
  tensor_neg : T -> Eff St T;
  tensor_detach : T -> Eff St T;
}.

Context {torch : TorchParts}.

(** [self.name]: [AttributeError] for a name that was never set (the
    classes [VanillaVAE] and [nn.Module] define no attribute with one of the
    names read below). *)
Definition getattr (self : object) (name : string) : VEff St attr :=
  match self !! name with
  | Some v => veff_ret v
  | None => veff_raise (AttributeError name)
  end.

(** [f(x)] for an attribute value [f]: an integer is not callable. *)
Definition call_attr (f : attr) (x : T) : VEff St T :=
  match f with
  | AttrModule m => lift (module_forward m x)
  | AttrInt _ => veff_raise (Other (ExternalError "TypeError"))
  end.

(** [VanillaVAE.__init__]; [in_channels] and [kwargs] are not used. *)
Definition VanillaVAE_init (in_channels latent_dim : Z) (hidden_dims : list Z)
    (encoder decoder : M) (kwargs : gmap string T) : VEff St object :=
  (let self : object := empty in
   let self := <["latent_dim" := AttrInt latent_dim]> self in
   let self := <["encoder" := AttrModule encoder]> self in
   load_global "nn";;;
   h <- py_last hidden_dims;;
   fc_mu <- lift (Linear (h * 4) latent_dim);;
   let self := <["fc_mu" := AttrModule fc_mu]> self in
   load_global "nn";;;
   h <- py_last hidden_dims;;
   fc_var <- lift (Linear (h * 4) latent_dim);;
   let self := <["fc_var" := AttrModule fc_var]> self in
   load_global "nn";;;
   h <- py_last hidden_dims;;
   decoder_input <- lift (Linear latent_dim (h * 4));;
   let self := <["decoder_input" := AttrModule decoder_input]> self in
   let self := <["decoder" := AttrModule decoder]> self in
   veff_ret self)%veff.

(** [VanillaVAE.encode] *)
Definition encode (self : object) (input : T) : VEff St (list T) :=
  (f <- getattr self "encoder";;
   result <- call_attr f input;;
   load_global "torch";;;
   result <- lift (torch_flatten result 1);;
   f <- getattr self "fc_mu";;
   mu <- call_attr f result;;
   f <- getattr self "fc_var";;
   log_var <- call_attr f result;;
   veff_ret [mu; log_var])%veff.

(** [VanillaVAE.decode] *)
Definition decode (self : object) (z : T) : VEff St T :=
  (f <- getattr self "decoder_input";;
   result <- call_attr f z;;
   result <- lift (tensor_view result [-1; 512; 2; 2]%Z);;
   f <- getattr self "decoder";;
   result <- call_attr f result;;
   f <- getattr self "final_layer";;
   result <- call_attr f result;;
   veff_ret result)%veff.

(** [VanillaVAE.reparameterize] *)
Definition reparameterize (mu logvar : T) : VEff St T :=
  (load_global "torch";;;
   half <- lift (scalar_mul 0.5%float logvar);;
   std <- lift (torch_exp half);;
   load_global "torch";;;
   eps <- lift (torch_randn_like std);;
   scaled <- lift (tensor_mul eps std);;
   lift (tensor_add scaled mu))%veff.

(** [VanillaVAE.forward]; [mu, log_var = ...] needs a list of two. *)
Definition VanillaVAE_forward (self : object) (input : T) : VEff St (list T) :=
  (codes <- encode self input;;
   match codes with
   | [mu; log_var] =>
       z <- reparameterize mu log_var;;
       decoded <- decode self z;;
       veff_ret [decoded; input; mu; log_var]
   | _ => veff_raise (Other (ExternalError "unpack"))
   end)%veff.

(** [VanillaVAE.loss_function(self, *args, **kwargs)] *)
Definition loss_function (self : object) (args : list T) (kwargs : gmap string T)
    : VEff St (gmap string T) :=
  (recons <- py_item args 0;;
   input <- py_item args 1;;
   mu <- py_item args 2;;
   log_var <- py_item args 3;;
   kld_weight <- py_getitem kwargs "M_N";;
   load_global "F";;;
   recons_loss <- lift (mse_loss recons input);;
   load_global "torch";;;
   load_global "torch";;;
   a <- lift (scalar_add 1 log_var);;
   b <- lift (tensor_pow mu 2);;
   c <- lift (tensor_sub a b);;
   d <- lift (torch_exp log_var);;
   e <- lift (tensor_sub c d);;
   total <- lift (torch_sum e 1);;
   scaled <- lift (scalar_mul (-0.5)%float total);;
   kld_loss <- lift (torch_mean scaled 0);;
   weighted <- lift (tensor_mul kld_weight kld_loss);;
   loss <- lift (tensor_add recons_loss weighted);;
   recons_detached <- lift (tensor_detach recons_loss);;
   kld_detached <- lift (tensor_detach kld_loss);;
   kld_negated <- lift (tensor_neg kld_detached);;
   veff_ret (<["KLD" := kld_negated]>
               (<["Reconstruction_Loss" := recons_detached]>
                  (<["loss" := loss]> (empty : gmap string T)))))%veff.

(** [VanillaVAE.sample]; [kwargs] is not used. *)
Definition sample (self : object) (num_samples current_device : Z) : VEff St T :=
  (load_global "torch";;;
   latent_dim <- getattr self "latent_dim";;
   z <- match latent_dim with
        | AttrInt d => lift (torch_randn num_samples d)
        | AttrModule _ => veff_raise (Other (ExternalError "TypeError"))
        end;;
   z <- lift (tensor_to z current_device);;
   samples <- decode self z;;
   veff_ret samples)%veff.

(** [VanillaVAE.generate]; [kwargs] is not used. *)
Definition generate (self : object) (x : T) : VEff St T :=
  (outputs <- VanillaVAE_forward self x;;
   py_item outputs 0)%veff.

End VAE.

(** The attributes of an object that the constructor returned. *)
Definition constructed {M : Type} (latent_dim : Z)
    (encoder decoder fc_mu fc_var decoder_input : M) : @object M :=
  list_to_map
    [("decoder", AttrModule decoder);
     ("decoder_input", AttrModule decoder_input);
     ("fc_var", AttrModule fc_var);
     ("fc_mu", AttrModule fc_mu);
     ("encoder", AttrModule encoder);
     ("latent_dim", AttrInt latent_dim)].

(** A tensor library on integers to exercise the theorems: a linear layer
    is the pair of its sizes, which must not be negative; the state counts
    the layers created; a module adds its first size; [view] and the other
    operations return their first tensor argument. *)
Definition example_torch : @TorchParts Z (Z * Z) nat :=
  {| Linear in_features out_features := fun s =>
       if ((0 <=? in_features) && (0 <=? out_features))%Z
       then (inr (in_features, out_features), S s)
       else (inl (ExternalError "Linear"), s);
     module_forward m x := eff_ret (x + m.1)%Z;
     torch_flatten x _ := eff_ret x;
     tensor_view x _ := eff_ret x;
     torch_exp x := eff_ret x;
     torch_randn_like x := eff_ret x;
     torch_randn n d := eff_ret (n * d)%Z;
     tensor_to x _ := eff_ret x;
     torch_sum x _ := eff_ret x;
     torch_mean x _ := eff_ret x;
     mse_loss x y := eff_ret (x - y)%Z;
     scalar_mul _ x := eff_ret x;
     scalar_add k x := eff_ret (k + x)%Z;
     tensor_pow x _ := eff_ret x;
     tensor_add x y := eff_ret (x + y)%Z;
     tensor_sub x y := eff_ret (x - y)%Z;
     tensor_mul x y := eff_ret (x * y)%Z;
     tensor_neg x := eff_ret (- x)%Z;
     tensor_detach x := eff_ret x |}.

(** The object built for [latent_dim = 16] and [hidden_dims = [32; 512]]. *)
Definition example_vae : @object (Z * Z) :=
  constructed 16 (1, 1)%Z (2, 2)%Z (2048, 16)%Z (2048, 16)%Z (16, 2048)%Z.

(* ================================================================== *)
(** * Part II: properties                                               *)
(* ================================================================== *)

(** ** Reasoning about computations *)

Lemma eff_bind_inr {S A B : Type} (m : Eff S A) (k : A -> Eff S B) s b s' :
  eff_bind m k s = (inr b, s') ->
  exists a s1, m s = (inr a, s1) /\ k a s1 = (inr b, s').
Proof.
  unfold eff_bind. destruct (m s) as [[e | a] s1]; [discriminate | eauto].
Qed.

Lemma eff_bind_inl {S A B : Type} (m : Eff S A) (k : A -> Eff S B) s e s' :
  eff_bind m k s = (inl e, s') ->
  m s = (inl e, s') \/ exists a s1, m s = (inr a, s1) /\ k a s1 = (inl e, s').
Proof.
  unfold eff_bind. destruct (m s) as [[e1 | a] s1]; [left | right; eauto].
  congruence.
Qed.

Lemma eff_ret_inr {S A : Type} (a b : A) (s s' : S) :
  eff_ret a s = (inr b, s') -> b = a /\ s' = s.
Proof. unfold eff_ret. intros [= -> ->]. auto. Qed.

(** ** The objects a constructor creates *)

Section Construction.
Context `{LayerFactory}.

Lemma high_order_fc_layers_inr a h m h' :
  high_order_fc_layers a h = (inr m, h') ->
  m = Module (next_id h) (HighOrderFc a) []
  /\ next_id h' = S (next_id h)
  /\ built h' = built h ++ [m].
Proof.
  unfold high_order_fc_layers, eff_bind, fresh, record_built, eff_ret.
  destruct (fc_accepts a); [| discriminate].
  intros [= <- <-]. simpl. auto.
Qed.

Lemma high_order_convolution_layers_inr a h m h' :
  high_order_convolution_layers a h = (inr m, h') ->
  m = Module (next_id h) (HighOrderConv a) []
  /\ next_id h' = S (next_id h)
  /\ built h' = built h ++ [m].
Proof.
  unfold high_order_convolution_layers, eff_bind, fresh, record_built, eff_ret.
  destruct (conv_accepts a); [| discriminate].
  intros [= <- <-]. simpl. auto.
Qed.

Lemma nn_Sequential_inr layer_list h m h' :
  nn_Sequential layer_list h = (inr m, h') ->
  m = Module (next_id h) Sequential layer_list
  /\ next_id h' = S (next_id h)
  /\ built h' = built h.
Proof.
  unfold nn_Sequential, eff_bind, fresh, eff_ret.
  intros [= <- <-]. simpl. auto.
Qed.

Lemma append_non_linearity_inr nl l h l' h' :
  append_non_linearity nl l h = (inr l', h') ->
  l' = l ++ non_linearity_entries nl (next_id h)
  /\ next_id h' = next_id h + non_linearity_count nl
  /\ built h' = built h.
Proof.
  destruct nl as [cls |]; simpl; intros Hrun.
  - unfold instantiate, eff_bind, fresh, eff_ret in Hrun.
    injection Hrun as <- <-. simpl. repeat split; lia.
  - apply eff_ret_inr in Hrun as [-> ->]. rewrite app_nil_r. repeat split; lia.
Qed.

Lemma append_normalization_eq nm (l : list module) :
  append_normalization nm l = l ++ option_list nm.
Proof. destruct nm; simpl; [reflexivity | by rewrite app_nil_r]. Qed.

Lemma hidden_loop_inr a n_hidden k : forall l h l' h',
  hidden_loop a n_hidden k l h = (inr l', h') ->
  l' = l ++ concat (map block_entries (hidden_blocks a n_hidden k (next_id h)))
  /\ next_id h' = next_id h + k * (non_linearity_count (mlp_non_linearity a) + 1)
  /\ built h' = built h ++ map snd (hidden_blocks a n_hidden k (next_id h)).
Proof.
  induction k as [| k IH]; intros l h l' h' Hrun; simpl in Hrun.
  - apply eff_ret_inr in Hrun as [-> ->]. simpl. rewrite !app_nil_r. auto with lia.
  - apply eff_bind_inr in Hrun as (l1 & h1 & Hnl & Hrun).
    apply eff_bind_inr in Hrun as (hid & h2 & Hfc & Hrun).
    apply append_non_linearity_inr in Hnl as (-> & Hid1 & Hb1).
    apply high_order_fc_layers_inr in Hfc as (-> & Hid2 & Hb2).
    apply IH in Hrun as (-> & Hid3 & Hb3).
    assert (Hh2 : next_id h2 = next_id h + non_linearity_count (mlp_non_linearity a) + 1)
      by lia.
    rewrite Hh2 in Hid3, Hb3. rewrite Hh2. rewrite Hid1 in Hb2 |- *.
    rewrite append_normalization_eq, Hb3, Hb2, Hb1.
    simpl. unfold block_entries at 2, hidden_block. simpl.
    rewrite <- !app_assoc. simpl.
    split; [reflexivity | split; [lia | reflexivity]].
Qed.

Lemma length_hidden_blocks a n_hidden k i :
  length (hidden_blocks a n_hidden k i) = k.
Proof. revert i. induction k; intros; simpl; auto. Qed.

Lemma hidden_blocks_spec a n_hidden k i :
  Forall (fun b => exists j, i <= j /\ b = hidden_block a n_hidden j)
         (hidden_blocks a n_hidden k i).
Proof.
  revert i. induction k as [| k IH]; intros i; simpl; constructor.
  - exists i. auto.
  - eapply Forall_impl; [apply IH |]. intros b (j & Hj & ->). exists j. split; [lia | auto].
Qed.

(** What [HighOrderMLP.__init__] has built when it returns. *)
Lemma HighOrderMLP_init_inr a h net h' :
  HighOrderMLP_init a h = (inr net, h') ->
  let nl := mlp_non_linearity a in
  let c := non_linearity_count nl in
  let i := next_id h in
  let blocks := hidden_blocks a (py_or (mlp_n_hidden a) (mlp_n a))
                  (Z.to_nat (mlp_hidden_layers a)) (S i) in
  let j := S i + Z.to_nat (mlp_hidden_layers a) * (c + 1) in
  exists input output,
    module_children (model net) =
      input :: concat (map block_entries blocks)
        ++ non_linearity_entries nl j ++ non_linearity_entries nl (j + c) ++ [output]
    /\ built h' = built h ++ [input] ++ map snd blocks ++ [output]
    /\ layer_order input = Some (py_or (mlp_n_in a) (mlp_n a))
    /\ module_id input = i /\ is_weight_layer input = true
    /\ layer_order output = Some (py_or (mlp_n_out a) (mlp_n a))
    /\ module_id output = j + c + c /\ is_weight_layer output = true.
Proof.
  unfold HighOrderMLP_init. intros Hrun.
  apply eff_bind_inr in Hrun as (input & h0 & Hin & Hrun).
  apply eff_bind_inr in Hrun as (l1 & h1 & Hloop & Hrun).
  apply eff_bind_inr in Hrun as (l2 & h2 & Hnl1 & Hrun).
  apply eff_bind_inr in Hrun as (l3 & h3 & Hnl2 & Hrun).
  apply eff_bind_inr in Hrun as (output & h4 & Hout & Hrun).
  apply eff_bind_inr in Hrun as (sq & h5 & Hseq & Hrun).
  apply eff_ret_inr in Hrun as [-> ->].
  apply high_order_fc_layers_inr in Hin as (-> & Hid0 & Hb0).
  apply hidden_loop_inr in Hloop as (-> & Hid1 & Hb1).
  apply append_non_linearity_inr in Hnl1 as (-> & Hid2 & Hb2).
  apply append_non_linearity_inr in Hnl2 as (-> & Hid3 & Hb3).
  apply high_order_fc_layers_inr in Hout as (-> & Hid4 & Hb4).
  apply nn_Sequential_inr in Hseq as (-> & Hid5 & Hb5).
  simpl. rewrite Hid0 in *. rewrite Hid1 in *. rewrite Hid2 in *. rewrite Hid3 in *.
  eexists _, _. split; [| split].
  - simpl. rewrite <- !app_assoc. reflexivity.
  - rewrite Hb5, Hb4, Hb3, Hb2, Hb1, Hb0. rewrite <- !app_assoc. reflexivity.
  - simpl. repeat split.
Qed.

End Construction.

(** ** HighOrderMLP: where normalization and nonlinearity go *)

Section MLP.
Context `{LayerFactory}.

Lemma is_nonlinearity_created cls i : is_nonlinearity cls (Module i (NonLinearity cls) []).
Proof. split; reflexivity. Qed.

(** A list that ends with a weight-bearing layer. *)
Lemma last_block_entries (x : module) (bs : list (list module * module)) :
  is_weight_layer x = true ->
  Forall (fun b => is_weight_layer b.2 = true) bs ->
  exists y, last (x :: concat (map block_entries bs)) = Some y /\ is_weight_layer y = true.
Proof.
  intros Hx Hbs. revert x Hx. induction Hbs as [| b bs Hb _ IH]; intros x Hx.
  - exists x. auto.
  - destruct (IH b.2 Hb) as (y & Hy & Hwl). exists y. split; [| exact Hwl].
    simpl. unfold block_entries at 1.
    rewrite <- app_assoc, app_comm_cons, last_app. simpl (_ ++ _).
    rewrite Hy. reflexivity.
Qed.

(** C6. When a nonlinearity class is configured, the layer list that
    [HighOrderMLP.__init__] builds is: the input layer; then, for each
    hidden layer, the normalization (if any), one new instance of the
    nonlinearity and the hidden layer; then two new, distinct instances of
    the nonlinearity, one after the other; then the output layer. The entry
    before these two instances is a weight-bearing layer, so the nonlinearity
    stands exactly twice before the output layer and once before each hidden
    layer. *)
Theorem non_linearity_doubled_before_output a h net h' cls :
  HighOrderMLP_init a h = (inr net, h') ->
  mlp_non_linearity a = Some cls ->
  exists (input : module) (blocks : list (list module)) (nl1 nl2 output before : module),
    module_children (model net) = input :: concat blocks ++ [nl1; nl2; output]
    /\ is_weight_layer input = true
    /\ is_weight_layer output = true
    /\ is_nonlinearity cls nl1 /\ is_nonlinearity cls nl2
    /\ module_id nl1 <> module_id nl2
    /\ last (input :: concat blocks) = Some before /\ is_weight_layer before = true
    /\ length blocks = Z.to_nat (mlp_hidden_layers a)
    /\ Forall (fun b => exists nl hidden,
                 b = option_list (mlp_normalization a) ++ [nl; hidden]
                 /\ is_nonlinearity cls nl
                 /\ is_weight_layer hidden = true) blocks.
Proof.
  intros Hrun Hnl.
  apply HighOrderMLP_init_inr in Hrun
    as (input & output & Hch & _ & _ & _ & Hin & _ & _ & Hout).
  rewrite Hnl in Hch. simpl in Hch.
  set (bs := hidden_blocks a (py_or (mlp_n_hidden a) (mlp_n a))
               (Z.to_nat (mlp_hidden_layers a)) (S (next_id h))) in *.
  assert (Hbs : Forall (fun b => is_weight_layer b.2 = true) bs).
  { eapply Forall_impl; [apply hidden_blocks_spec |]. intros b (j & _ & ->). reflexivity. }
  destruct (last_block_entries input bs Hin Hbs) as (before & Hlast & Hbefore).
  eexists input, (map block_entries bs), _, _, output, before.
  split; [exact Hch |].
  repeat (split; [first [assumption | apply is_nonlinearity_created] |]).
  split; [simpl; lia |].
  split; [exact Hlast |]. split; [exact Hbefore |].
  split; [rewrite length_map; apply length_hidden_blocks |].
  apply Forall_map. eapply Forall_impl; [apply hidden_blocks_spec |].
  intros b (j & _ & ->). unfold block_entries, hidden_block. simpl. rewrite Hnl. simpl.
  eexists _, _. split; [rewrite <- app_assoc; reflexivity |].
  split; [apply is_nonlinearity_created | reflexivity].
Qed.

End MLP.

(** The theorem at a network with two hidden layers, a normalization and
    the nonlinearity ["ReLU"]. *)
Lemma non_linearity_doubled_before_output_witness :
  exists net h',
    HighOrderMLP_init (H := accept_all) (mlp_example 2 (Some "ReLU") (Some layer_norm)) heap0
      = (inr net, h')
    /\ exists (input : module) (blocks : list (list module)) (nl1 nl2 output before : module),
         module_children (model net) = input :: concat blocks ++ [nl1; nl2; output]
         /\ is_weight_layer input = true
         /\ is_weight_layer output = true
         /\ is_nonlinearity "ReLU" nl1 /\ is_nonlinearity "ReLU" nl2
         /\ module_id nl1 <> module_id nl2
         /\ last (input :: concat blocks) = Some before /\ is_weight_layer before = true
         /\ length blocks = 2
         /\ Forall (fun b => exists nl hidden,
                      b = [layer_norm; nl; hidden]
                      /\ is_nonlinearity "ReLU" nl
                      /\ is_weight_layer hidden = true) blocks.
Proof.
  eexists _, _. split; [vm_compute; reflexivity |].
  eapply (non_linearity_doubled_before_output (H := accept_all)
            (mlp_example 2 (Some "ReLU") (Some layer_norm)) heap0);
    [vm_compute; reflexivity | reflexivity].
Defined.

Section MLPDefaults.
Context `{LayerFactory}.

(** C10. With [hidden_layers = 0] the layer list holds the input layer, the
    output layer and, between them, two new instances of the nonlinearity
    when one is configured (nothing otherwise). Every entry is an object the
    constructor created: a normalization object passed in (which existed
    before the call, so its identity is below the heap's next free one) is
    not an entry. *)
Theorem no_hidden_layers_no_normalization a h net h' :
  mlp_hidden_layers a = 0%Z ->
  HighOrderMLP_init a h = (inr net, h') ->
  exists input output : module,
    is_weight_layer input = true
    /\ is_weight_layer output = true
    /\ (forall nm, mlp_normalization a = Some nm -> module_id nm < next_id h ->
          Forall (fun m => module_id m <> module_id nm) (module_children (model net)))
    /\ match mlp_non_linearity a with
       | Some cls =>
           exists nl1 nl2 : module,
             module_children (model net) = [input; nl1; nl2; output]
             /\ is_nonlinearity cls nl1 /\ is_nonlinearity cls nl2
             /\ module_id nl1 <> module_id nl2
       | None => module_children (model net) = [input; output]
       end.
Proof.
  intros Hzero Hrun.
  apply HighOrderMLP_init_inr in Hrun
    as (input & output & Hch & _ & _ & Hidin & Hin & _ & Hidout & Hout).
  rewrite Hzero in Hch, Hidout. simpl in Hch, Hidout.
  exists input, output. split; [exact Hin |]. split; [exact Hout |]. split.
  - intros nm _ Hold. rewrite Hch.
    destruct (mlp_non_linearity a); simpl in *;
      repeat (constructor; [simpl; lia |]); constructor.
  - destruct (mlp_non_linearity a) as [cls |]; simpl in *.
    + eexists _, _. split; [exact Hch |].
      split; [apply is_nonlinearity_created |].
      split; [apply is_nonlinearity_created |]. simpl. lia.
    + exact Hch.
Qed.

(** C8. The layers the factory has built when [HighOrderMLP.__init__]
    returns are the input layer, [hidden_layers] hidden layers and the
    output layer, in this order; each stage whose own order ([n_in],
    [n_hidden], [n_out]) is [None] was built with the global order [n]. *)
Theorem unset_orders_default_to_n a h net h' :
  HighOrderMLP_init a h = (inr net, h') ->
  exists (input : module) (hidden : list module) (output : module),
    built h' = built h ++ [input] ++ hidden ++ [output]
    /\ length hidden = Z.to_nat (mlp_hidden_layers a)
    /\ (mlp_n_in a = None -> layer_order input = Some (mlp_n a))
    /\ (mlp_n_hidden a = None -> Forall (fun m => layer_order m = Some (mlp_n a)) hidden)
    /\ (mlp_n_out a = None -> layer_order output = Some (mlp_n a)).
Proof.
  intros Hrun.
  apply HighOrderMLP_init_inr in Hrun
    as (input & output & _ & Hbuilt & Hoin & _ & _ & Hoout & _ & _).
  eexists input, _, output. split; [exact Hbuilt |].
  split; [rewrite length_map; apply length_hidden_blocks |].
  split; [| split].
  - intros Hnone. rewrite Hnone in Hoin. exact Hoin.
  - intros Hnone. rewrite Hnone. simpl. apply Forall_map.
    eapply Forall_impl; [apply hidden_blocks_spec |]. intros b (j & _ & ->). reflexivity.
  - intros Hnone. rewrite Hnone in Hoout. exact Hoout.
Qed.

End MLPDefaults.

(** The theorem at a network without hidden layers, given a normalization
    and the nonlinearity ["ReLU"]. *)
Lemma no_hidden_layers_no_normalization_witness :
  exists net h',
    HighOrderMLP_init (H := accept_all) (mlp_example 0 (Some "ReLU") (Some layer_norm)) heap0
      = (inr net, h')
    /\ exists input nl1 nl2 output : module,
         module_children (model net) = [input; nl1; nl2; output]
         /\ is_weight_layer input = true
         /\ is_weight_layer output = true
         /\ is_nonlinearity "ReLU" nl1 /\ is_nonlinearity "ReLU" nl2
         /\ module_id nl1 <> module_id nl2
         /\ Forall (fun m => module_id m <> module_id layer_norm)
                   (module_children (model net)).
Proof.
  eexists _, _. split; [vm_compute; reflexivity |].
  edestruct (no_hidden_layers_no_normalization (H := accept_all)
               (mlp_example 0 (Some "ReLU") (Some layer_norm)) heap0)
    as (input & output & Hin & Hout & Hnorm & nl1 & nl2 & Hch & Hnl1 & Hnl2 & Hne);
    [reflexivity | vm_compute; reflexivity |].
  exists input, nl1, nl2, output.
  repeat (split; [assumption |]).
  apply (Hnorm layer_norm); [reflexivity | simpl; lia].
Defined.

(** The theorem at a network with two hidden layers and no stage order
    set. *)
Lemma unset_orders_default_to_n_witness :
  exists net h',
    HighOrderMLP_init (H := accept_all) (mlp_example 2 None None) heap0 = (inr net, h')
    /\ exists (input : module) (hidden : list module) (output : module),
         built h' = [input] ++ hidden ++ [output]
         /\ length hidden = 2
         /\ layer_order input = Some 3%Z
         /\ Forall (fun m => layer_order m = Some 3%Z) hidden
         /\ layer_order output = Some 3%Z.
Proof.
  eexists _, _. split; [vm_compute; reflexivity |].
  edestruct (unset_orders_default_to_n (H := accept_all) (mlp_example 2 None None) heap0)
    as (input & hidden & output & Hbuilt & Hlen & Hin & Hhid & Hout);
    [vm_compute; reflexivity |].
  exists input, hidden, output.
  split; [exact Hbuilt |]. split; [exact Hlen |].
  split; [exact (Hin eq_refl) |]. split; [exact (Hhid eq_refl) | exact (Hout eq_refl)].
Defined.

(** ** HighOrderFullyConvolutionalNetwork: validation and layer list *)

Section ConvNet.
Context `{LayerFactory}.

Lemma py_index_inr {S A : Type} (l : list A) i (s s' : S) x :
  py_index l i s = (inr x, s') -> l !! i = Some x /\ s' = s.
Proof.
  unfold py_index. destruct (l !! i); [| discriminate].
  intros Hret. apply eff_ret_inr in Hret as [-> ->]. auto.
Qed.

(** The second and third checks compare an [int] with [False] by identity
    in their last link, which never holds. *)
Lemma lists_not_same_size_false a : lists_not_same_size a = false.
Proof. unfold lists_not_same_size. simpl. apply andb_false_r. Qed.

Lemma channels_not_one_more_false a : channels_not_one_more a = false.
Proof. unfold channels_not_one_more. simpl. apply andb_false_r. Qed.

(** The only [ValueError] the constructor can raise is the first one. *)
Lemma conv_loop_no_ValueError a indices : forall l h site h',
  conv_loop a indices l h <> (inl (ValueError site), h').
Proof.
  induction indices as [| i rest IH]; intros l h site h' Hrun; simpl in Hrun;
    [discriminate |].
  unfold py_index, high_order_convolution_layers, eff_bind, eff_ret, raise, fresh,
    record_built in Hrun.
  repeat match type of Hrun with
         | context [match ?l !! ?k with _ => _ end] => destruct (l !! k)
         | context [if conv_accepts ?x then _ else _] => destruct (conv_accepts x)
         end; try discriminate.
  exact (IH _ _ _ _ Hrun).
Qed.

Lemma ValueError_only_for_short_channels a h site h' :
  HighOrderFullyConvolutionalNetwork_init a h = (inl (ValueError site), h') ->
  site = ChannelsTooShort /\ length (cn_channels a) < 2 /\ h' = h.
Proof.
  unfold HighOrderFullyConvolutionalNetwork_init.
  rewrite lists_not_same_size_false, channels_not_one_more_false.
  destruct (py_len (cn_channels a) <? 2)%Z eqn:Hlen.
  - intros [= <- <-]. apply Z.ltb_lt in Hlen. unfold py_len in Hlen. repeat split; lia.
  - intros Hrun. exfalso.
    apply eff_bind_inl in Hrun as [Hloop | (l & h1 & _ & Hrun)].
    + exact (conv_loop_no_ValueError _ _ _ _ _ _ Hloop).
    + unfold nn_Sequential, eff_bind, fresh, eff_ret in Hrun. discriminate.
Qed.

(** What the layer loop has appended when it returns: for each index, the
    normalization (if any) and one new convolutional layer. *)
Lemma conv_loop_inr a indices : forall l h l' h',
  conv_loop a indices l h = (inr l', h') ->
  exists layers : list module,
    l' = l ++ concat (map (fun layer => option_list (cn_normalization a) ++ [layer]) layers)
    /\ length layers = length indices
    /\ built h' = built h ++ layers
    /\ Forall (fun layer => is_weight_layer layer = true /\ next_id h <= module_id layer) layers
    /\ next_id h <= next_id h'.
Proof.
  induction indices as [| i rest IH]; intros l h l' h' Hrun; simpl in Hrun.
  - apply eff_ret_inr in Hrun as [-> ->]. exists []. simpl. rewrite !app_nil_r. auto.
  - apply eff_bind_inr in Hrun as (t & h1 & Ht & Hrun). apply py_index_inr in Ht as [_ ->].
    apply eff_bind_inr in Hrun as (n_i & h1 & Hn & Hrun). apply py_index_inr in Hn as [_ ->].
    apply eff_bind_inr in Hrun as (ci & h1 & Hci & Hrun). apply py_index_inr in Hci as [_ ->].
    apply eff_bind_inr in Hrun as (co & h1 & Hco & Hrun). apply py_index_inr in Hco as [_ ->].
    apply eff_bind_inr in Hrun as (ks & h1 & Hks & Hrun). apply py_index_inr in Hks as [_ ->].
    apply eff_bind_inr in Hrun as (sg & h1 & Hsg & Hrun). apply py_index_inr in Hsg as [_ ->].
    apply eff_bind_inr in Hrun as (layer & h1 & Hlayer & Hrun).
    apply high_order_convolution_layers_inr in Hlayer as (-> & Hid & Hb).
    apply IH in Hrun as (layers & -> & Hlen & Hbuilt & Hall & Hle).
    eexists (_ :: layers). simpl.
    rewrite append_normalization_eq, <- !app_assoc. simpl.
    split; [reflexivity |]. split; [lia |].
    split; [rewrite Hbuilt, Hb, <- app_assoc; reflexivity |].
    split; [| lia].
    constructor; [simpl; auto |].
    eapply Forall_impl; [exact Hall |]. simpl. intros m [? ?]. split; [assumption | lia].
Qed.

(** The last entry of [nm; layer_1; ...; nm; layer_k] is [layer_k]. *)
Lemma last_interleaved (nm : module) (layers : list module) :
  last (concat (map (fun layer => [nm; layer]) layers)) = last layers.
Proof.
  induction layers as [| x [| y rest] IH]; [reflexivity | reflexivity |].
  change (concat (map (fun layer => [nm; layer]) (x :: y :: rest)))
    with (nm :: x :: concat (map (fun layer => [nm; layer]) (y :: rest))).
  rewrite last_cons_cons, last_cons, IH. rewrite last_cons_cons.
  destruct (last (y :: rest)) eqn:Hlast; [reflexivity |].
  apply last_None in Hlast. discriminate.
Qed.

(** C5. With fewer than two channels the constructor raises the first
    [ValueError] and leaves the heap as it found it: no layer is built and
    no object is created. *)
Theorem short_channels_rejected a h :
  length (cn_channels a) < 2 ->
  HighOrderFullyConvolutionalNetwork_init a h = (inl (ValueError ChannelsTooShort), h).
Proof.
  intros Hshort. unfold HighOrderFullyConvolutionalNetwork_init.
  assert (Hlt : (py_len (cn_channels a) <? 2)%Z = true)
    by (apply Z.ltb_lt; unfold py_len; lia).
  rewrite Hlt. reflexivity.
Qed.

(** C9. When a normalization object [nm] is passed and the constructor
    returns, the layer list is [nm; layer_1; nm; layer_2; ...; nm; layer_k]
    with [k = len(channels) - 1 >= 1]: the object [nm] itself stands before
    every convolutional layer, the first included, and the last entry is
    the last layer. The layers are objects the constructor created (their
    identities are not below the heap's next free one at the call). *)
Theorem normalization_shared_before_every_layer a h net h' nm :
  HighOrderFullyConvolutionalNetwork_init a h = (inr net, h') ->
  cn_normalization a = Some nm ->
  exists layers : list module,
    module_children (conv_model net) = concat (map (fun layer => [nm; layer]) layers)
    /\ length layers = length (cn_channels a) - 1
    /\ 0 < length layers
    /\ last (module_children (conv_model net)) = last layers
    /\ built h' = built h ++ layers
    /\ Forall (fun layer => is_weight_layer layer = true /\ next_id h <= module_id layer)
              layers.
Proof.
  unfold HighOrderFullyConvolutionalNetwork_init.
  rewrite lists_not_same_size_false, channels_not_one_more_false.
  destruct (py_len (cn_channels a) <? 2)%Z eqn:Hlen; [discriminate |].
  apply Z.ltb_ge in Hlen. unfold py_len in Hlen.
  intros Hrun Hnm.
  apply eff_bind_inr in Hrun as (l & h1 & Hloop & Hrun).
  apply eff_bind_inr in Hrun as (sq & h2 & Hseq & Hrun).
  apply eff_ret_inr in Hrun as [-> ->].
  apply nn_Sequential_inr in Hseq as (-> & _ & Hb2).
  apply conv_loop_inr in Hloop as (layers & -> & Hlayers & Hbuilt & Hall & _).
  rewrite length_seq in Hlayers. rewrite Hnm in *.
  exists layers. simpl. repeat split; try assumption; try lia.
  - apply last_interleaved.
  - congruence.
Qed.

End ConvNet.

(** The theorem at a call with one channel. *)
Lemma short_channels_rejected_witness :
  HighOrderFullyConvolutionalNetwork_init (H := accept_all)
    (conv_example [3; 3]%Z [1]%Z None) heap0
  = (inl (ValueError ChannelsTooShort), heap0).
Proof.
  apply (short_channels_rejected (H := accept_all) (conv_example [3; 3]%Z [1]%Z None) heap0).
  simpl. lia.
Defined.

(** The theorem at a network of two layers given the normalization
    [layer_norm]. *)
Lemma normalization_shared_before_every_layer_witness :
  exists net h',
    HighOrderFullyConvolutionalNetwork_init (H := accept_all)
      (conv_example [3; 3]%Z [1; 8; 4]%Z (Some layer_norm)) heap0 = (inr net, h')
    /\ exists layers : list module,
         module_children (conv_model net)
           = concat (map (fun layer => [layer_norm; layer]) layers)
         /\ length layers = 2
         /\ 0 < length layers
         /\ last (module_children (conv_model net)) = last layers
         /\ built h' = layers
         /\ Forall (fun layer => is_weight_layer layer = true /\ 1 <= module_id layer) layers.
Proof.
  eexists _, _. split; [vm_compute; reflexivity |].
  eapply (normalization_shared_before_every_layer (H := accept_all)
            (conv_example [3; 3]%Z [1; 8; 4]%Z (Some layer_norm)) heap0);
    [vm_compute; reflexivity | reflexivity].
Defined.


(** ** The Order-Interpolation Engine: which layers it pairs *)

Section Engine.
Context {store : Type} `{LayerInterpolator store}.



(** Filtering a zip of two lists that agree on the filter. *)
Lemma filter_zip_aligned {A : Type} (f : A -> bool) (l1 l2 : list A) :
  map f l1 = map f l2 ->
  List.filter (fun p => f p.1) (zip l1 l2) = zip (List.filter f l1) (List.filter f l2).
Proof.
  revert l2. induction l1 as [| x l1 IH]; intros [| y l2] Hmap; simpl in *;
    try discriminate; [reflexivity |].
  injection Hmap as Hxy Hmap. rewrite <- Hxy.
  destruct (f x); simpl; rewrite IH by assumption; reflexivity.
Qed.




End Engine.





(** ** Expansion2d: the layout of the expanded channels *)

Section Expansion.
Context {A : Type}.
Implicit Types (t : tensor A) (s idx : list nat).

Lemma offset_lt s idx : in_bounds s idx -> offset s idx < numel s.
Proof.
  unfold in_bounds. intros Hb. induction Hb as [| i d idx s Hlt _ IH]; simpl; [lia |].
  fold (numel s). nia.
Qed.

Lemma unravel_offset s idx : in_bounds s idx -> unravel s (offset s idx) = idx.
Proof.
  unfold in_bounds. intros Hb. induction Hb as [| i d idx s Hlt Hrest IH]; simpl; [reflexivity |].
  pose proof (offset_lt s idx Hrest) as Hoff.
  f_equal.
  - symmetry. apply (Nat.div_unique _ _ _ (offset s idx)); [exact Hoff | lia].
  - rewrite <- IH at 2. f_equal.
    symmetry. apply (Nat.mod_unique _ _ i); [exact Hoff | lia].
Qed.

(** Reading a permuted tensor is reading the original at the permuted
    index. *)
Lemma get_permute dims t t' idx' :
  permute dims t = inr t' ->
  in_bounds (shape t') idx' ->
  get t' idx' = get t (source_index dims idx').
Proof.
  unfold permute. case_bool_decide; [| discriminate].
  intros [= <-] Hb. unfold get at 1. simpl in *. rewrite unravel_offset by exact Hb.
  reflexivity.
Qed.

Lemma permute_inr dims t :
  length dims = length (shape t) ->
  Forall (fun d => d < length (shape t)) dims ->
  NoDup dims ->
  exists t', permute dims t = inr t'
             /\ shape t' = map (fun d => nth d (shape t) 0) dims.
Proof.
  intros Hlen Hrange Hnodup. unfold permute.
  rewrite bool_decide_eq_true_2 by auto. eexists. split; reflexivity.
Qed.

Lemma stack_basis_of_order n (coef : nat -> A -> A) :
  basis_of_order (stack_basis n coef) n coef.
Proof.
  intros x. split; [reflexivity |].
  intros k idx _ Hb. unfold get, stack_basis. simpl.
  pose proof (offset_lt _ _ Hb) as Hoff. f_equal.
  - symmetry. apply (Nat.div_unique _ _ _ (offset (shape x) idx)); [exact Hoff | lia].
  - f_equal. symmetry. apply (Nat.mod_unique _ _ k); [exact Hoff | lia].
Qed.

(** C7. For a basis of order [n] and an input of shape [(B, C, H, W)],
    [Expansion2d.__call__] returns a tensor of shape [(B, C * n, H, W)]
    whose channel [c * n + k] holds, at every [(b, h, w)], coefficient [k]
    of the input element [(b, c, h, w)]: the [n] coefficients of input
    channel [c] fill channels [c * n .. c * n + n - 1], the coefficient
    index running fastest, and depend on no other input channel. *)
Theorem expansion_groups_coefficients_by_channel
    (basis : tensor A -> tensor A) (n : nat) (coef : nat -> A -> A)
    (x : tensor A) (B C H W : nat) :
  basis_of_order basis n coef ->
  shape x = [B; C; H; W] ->
  exists out : tensor A,
    Expansion2d_call basis x = inr out
    /\ shape out = [B; C * n; H; W]
    /\ forall b c h w k, b < B -> c < C -> h < H -> w < W -> k < n ->
         get out [b; c * n + k; h; w] = coef k (get x [b; c; h; w]).
Proof.
  intros Hbasis Hx. destruct (Hbasis x) as [Hres Hcoef]. rewrite Hx in Hres, Hcoef.
  unfold Expansion2d_call.
  destruct (permute_inr [1; 3; 4; 2; 0] (basis x)) as (r1 & Hp1 & Hs1).
  { rewrite Hres. reflexivity. }
  { rewrite Hres. simpl. repeat constructor; lia. }
  { compute_done. }
  rewrite Hres in Hs1. simpl in Hs1. rewrite Hp1, Hs1.
  assert (Hr2 : reshape [B; H; W; C * n] r1
                = inr {| shape := [B; H; W; C * n]; mem := mem r1 |}).
  { unfold reshape. rewrite bool_decide_eq_true_2; [reflexivity |].
    rewrite Hs1. simpl. ring. }
  rewrite Hr2.
  destruct (permute_inr [0; 3; 1; 2] {| shape := [B; H; W; C * n]; mem := mem r1 |})
    as (out & Hp2 & Hs2).
  { reflexivity. }
  { simpl. repeat constructor; lia. }
  { compute_done. }
  simpl in Hs2. exists out. split; [exact Hp2 |]. split; [exact Hs2 |].
  intros b c h w k Hb Hc Hh Hw Hk.
  assert (Hck : c * n + k < C * n) by nia.
  rewrite (get_permute _ _ _ _ Hp2)
    by (rewrite Hs2; unfold in_bounds; repeat constructor; assumption).
  change (source_index [0; 3; 1; 2] [b; c * n + k; h; w]) with [b; h; w; c * n + k].
  unfold get at 1. cbn [shape mem].
  replace (offset [B; H; W; C * n] [b; h; w; c * n + k])
    with (offset (shape r1) [b; h; w; c; k]) by (rewrite Hs1; simpl; ring).
  change (mem r1 (offset (shape r1) [b; h; w; c; k])) with (get r1 [b; h; w; c; k]).
  rewrite (get_permute _ _ _ _ Hp1)
    by (rewrite Hs1; unfold in_bounds; repeat constructor; assumption).
  change (source_index [1; 3; 4; 2; 0] [b; h; w; c; k]) with [k; b; c; h; w].
  apply Hcoef; [exact Hk |]. unfold in_bounds. repeat constructor; assumption.
Qed.

End Expansion.

(** The theorem at this input with a basis of order 2. *)
Lemma expansion_groups_coefficients_by_channel_witness :
  exists out : tensor Z,
    Expansion2d_call (stack_basis 2 expansion_coef) expansion_input = inr out
    /\ shape out = [1; 2 * 2; 1; 2]
    /\ forall b c h w k, b < 1 -> c < 2 -> h < 1 -> w < 2 -> k < 2 ->
         get out [b; c * 2 + k; h; w]
         = expansion_coef k (get expansion_input [b; c; h; w]).
Proof.
  apply (expansion_groups_coefficients_by_channel
           (stack_basis 2 expansion_coef) 2 expansion_coef expansion_input 1 2 1 2).
  - apply stack_basis_of_order.
  - reflexivity.
Defined.

(** The expansion computed on this input: channels 0 and 1 hold the two
    coefficients of input channel 0, channels 2 and 3 those of input
    channel 1. *)
Example expansion_computed :
  match Expansion2d_call (stack_basis 2 expansion_coef) expansion_input with
  | inr out => Some (shape out, map (mem out) (seq 0 8))
  | inl _ => None
  end = Some ([1; 4; 1; 2], [0; 1; 10; 11; 2; 3; 12; 13]%Z).
Proof. vm_compute. reflexivity. Qed.

(** A basis that returns a tensor of rank 4 makes the first [permute]
    raise. *)
Example expansion_rejects_rank_4 :
  Expansion2d_call (fun x => x) expansion_input = inl (ExternalError "RuntimeError").
Proof. vm_compute. reflexivity. Qed.

(** [modules()] yields a normalization object registered at two positions
    once. *)
Example modules_yields_each_object_once :
  exists net h',
    HighOrderMLP_init (H := accept_all) (mlp_example 2 None (Some layer_norm)) heap0
      = (inr net, h')
    /\ map module_id (module_children (model net)) = [1; 0; 2; 0; 3; 4]
    /\ map module_id (modules (model net)) = [5; 1; 0; 2; 3; 4].
Proof.
  eexists _, _. split; [vm_compute; reflexivity |]. split; vm_compute; reflexivity.
Qed.

(* ================================================================== *)
(** * Part III: further properties of the constructors                  *)
(* ================================================================== *)

(** ** HighOrderFullyConvolutionalNetwork: which calls return *)

Section ConvNetLayers.
Context `{LayerFactory}.

(** One turn of the layer loop. *)
Lemma conv_loop_step a i rest l h :
  conv_loop a (i :: rest) l h =
  match conv_layer_args a i with
  | None => (inl IndexError, h)
  | Some args =>
      if conv_accepts args then
        let layer := Module (next_id h) (HighOrderConv args) [] in
        conv_loop a rest (append_normalization (cn_normalization a) l ++ [layer])
          {| next_id := S (next_id h); built := built h ++ [layer] |}
      else (inl (ExternalError "high_order_convolution_layers"), h)
  end.
Proof.
  unfold conv_layer_args. simpl.
  unfold py_index, high_order_convolution_layers, eff_bind, eff_ret, raise, fresh,
    record_built.
  destruct (cn_layer_type a !! i); simpl; [| reflexivity].
  destruct (cn_n a !! i); simpl; [| reflexivity].
  destruct (cn_channels a !! i); simpl; [| reflexivity].
  destruct (cn_channels a !! (i + 1)); simpl; [| reflexivity].
  destruct (cn_kernel_size a !! i); simpl; [| reflexivity].
  destruct (cn_segments a !! i); simpl; [| reflexivity].
  destruct (conv_accepts _); reflexivity.
Qed.

(** Reading the arguments of layer [i] succeeds exactly when [i] is in
    range of every per-layer list and [i + 1] is in range of [channels]. *)
Lemma conv_layer_args_is_Some a i :
  is_Some (conv_layer_args a i) <->
  i < length (cn_layer_type a) /\ i < length (cn_n a)
  /\ i + 1 < length (cn_channels a)
  /\ i < length (cn_kernel_size a) /\ i < length (cn_segments a).
Proof.
  unfold conv_layer_args. split.
  - intros [args Hargs].
    destruct (cn_layer_type a !! i) eqn:H1; simpl in Hargs; [| discriminate].
    destruct (cn_n a !! i) eqn:H2; simpl in Hargs; [| discriminate].
    destruct (cn_channels a !! i) eqn:H3; simpl in Hargs; [| discriminate].
    destruct (cn_channels a !! (i + 1)) eqn:H4; simpl in Hargs; [| discriminate].
    destruct (cn_kernel_size a !! i) eqn:H5; simpl in Hargs; [| discriminate].
    destruct (cn_segments a !! i) eqn:H6; simpl in Hargs; [| discriminate].
    apply lookup_lt_Some in H1, H2, H4, H5, H6. auto.
  - intros (H1 & H2 & H4 & H5 & H6).
    assert (H3 : i < length (cn_channels a)) by lia.
    apply lookup_lt_is_Some in H1 as [? ->], H2 as [? ->], H3 as [? ->],
      H4 as [? ->], H5 as [? ->], H6 as [? ->].
    simpl. eauto.
Qed.

(** The loop over [range(s, s + k)] when it returns. *)
Lemma conv_loop_seq_inr a k : forall s l h l' h',
  conv_loop a (seq s k) l h = (inr l', h') ->
  exists layers : list module,
    l' = l ++ concat (map (fun layer => option_list (cn_normalization a) ++ [layer]) layers)
    /\ length layers = k
    /\ built h' = built h ++ layers
    /\ next_id h' = next_id h + k
    /\ forall j, j < k ->
         exists args, conv_layer_args a (s + j) = Some args
                      /\ conv_accepts args = true
                      /\ layers !! j = Some (Module (next_id h + j) (HighOrderConv args) []).
Proof.
  induction k as [| k IH]; intros s l h l' h' Hrun.
  - simpl in Hrun. apply eff_ret_inr in Hrun as [-> ->]. exists []. simpl.
    rewrite !app_nil_r. do 3 (split; [reflexivity |]). split; [lia |]. intros j Hj. lia.
  - change (seq s (S k)) with (s :: seq (S s) k) in Hrun. rewrite conv_loop_step in Hrun.
    destruct (conv_layer_args a s) as [args |] eqn:Hargs; [| discriminate].
    destruct (conv_accepts args) eqn:Hacc; [| discriminate].
    apply IH in Hrun as (layers & -> & Hlen & Hbuilt & Hid & Hlayers). simpl in *.
    exists (Module (next_id h) (HighOrderConv args) [] :: layers).
    rewrite append_normalization_eq, <- !app_assoc. simpl.
    split; [rewrite <- app_assoc; reflexivity |]. split; [lia |].
    split; [rewrite Hbuilt, <- app_assoc; reflexivity |]. split; [lia |].
    intros [| j] Hj.
    + exists args. rewrite !Nat.add_0_r. auto.
    + destruct (Hlayers j ltac:(lia)) as (args' & Hargs' & Hacc' & Hl).
      exists args'. replace (s + S j) with (S s + j) by lia.
      replace (next_id h + S j) with (S (next_id h) + j) by lia. auto.
Qed.

(** The loop over [range(s, s + k)] when every read is in range and the
    factory accepts every argument record. *)
Lemma conv_loop_seq_returns a k : forall s l h,
  (forall j, j < k -> exists args,
      conv_layer_args a (s + j) = Some args /\ conv_accepts args = true) ->
  exists l' h', conv_loop a (seq s k) l h = (inr l', h').
Proof.
  induction k as [| k IH]; intros s l h Hall.
  - simpl. eexists _, _. reflexivity.
  - change (seq s (S k)) with (s :: seq (S s) k). rewrite conv_loop_step.
    destruct (Hall 0 ltac:(lia)) as (args & Hargs & Hacc).
    rewrite Nat.add_0_r in Hargs. rewrite Hargs, Hacc.
    apply IH. intros j Hj. destruct (Hall (S j) ltac:(lia)) as (args' & Hargs' & Hacc').
    exists args'. replace (S s + j) with (s + S j) by lia. auto.
Qed.

(** The loop over [range(s, s + k)] when some read in it is out of range
    and the factory accepts every argument record. *)
Lemma conv_loop_seq_IndexError a k : forall s l h,
  (forall args, conv_accepts args = true) ->
  (exists j, j < k /\ conv_layer_args a (s + j) = None) ->
  exists h', conv_loop a (seq s k) l h = (inl IndexError, h').
Proof.
  induction k as [| k IH]; intros s l h Hacc (j & Hj & Hnone); [lia |].
  change (seq s (S k)) with (s :: seq (S s) k). rewrite conv_loop_step.
  destruct (conv_layer_args a s) as [args |] eqn:Hargs; [| eauto].
  rewrite Hacc. apply IH; [exact Hacc |].
  destruct j as [| j]; [rewrite Nat.add_0_r in Hnone; congruence |].
  exists j. split; [lia |]. replace (S s + j) with (s + S j) by lia. exact Hnone.
Qed.

End ConvNetLayers.

Section ConvNetCalls.
Context `{LayerFactory}.

(** A call of the constructor that returns has run the layer loop over
    [range(len(channels) - 1)] to its end. *)
Lemma conv_init_inr a h net h' :
  HighOrderFullyConvolutionalNetwork_init a h = (inr net, h') ->
  2 <= length (cn_channels a)
  /\ exists l h1,
       conv_loop a (seq 0 (length (cn_channels a) - 1)) [] h = (inr l, h1)
       /\ module_children (conv_model net) = l
       /\ built h' = built h1.
Proof.
  unfold HighOrderFullyConvolutionalNetwork_init.
  rewrite lists_not_same_size_false, channels_not_one_more_false.
  destruct (py_len (cn_channels a) <? 2)%Z eqn:Hlen; [discriminate |].
  apply Z.ltb_ge in Hlen. unfold py_len in Hlen. intros Hrun.
  apply eff_bind_inr in Hrun as (l & h1 & Hloop & Hrun).
  apply eff_bind_inr in Hrun as (sq & h2 & Hseq & Hrun).
  apply eff_ret_inr in Hrun as [-> ->].
  apply nn_Sequential_inr in Hseq as (-> & _ & Hb2).
  split; [lia |]. exists l, h1. auto.
Qed.

(** X1. When the constructor returns, layer [i] was built from entry [i] of
    [layer_type], [n], [kernel_size] and [segments], with
    [in_channels = channels[i]] and [out_channels = channels[i + 1]], and it
    is the [i]-th object the call created; the layer list holds these
    layers in order, each preceded by the normalization if one was passed
    and by nothing otherwise. Entries of the per-layer lists from index
    [len(channels) - 1] on are not read. *)
Theorem conv_layers_follow_the_lists a h net h' :
  HighOrderFullyConvolutionalNetwork_init a h = (inr net, h') ->
  exists layers : list module,
    module_children (conv_model net)
      = concat (map (fun layer => option_list (cn_normalization a) ++ [layer]) layers)
    /\ length layers = length (cn_channels a) - 1
    /\ built h' = built h ++ layers
    /\ forall i, i < length (cn_channels a) - 1 ->
         exists args,
           layers !! i = Some (Module (next_id h + i) (HighOrderConv args) [])
           /\ cn_layer_type a !! i = Some (conv_layer_type args)
           /\ cn_n a !! i = Some (conv_n args)
           /\ cn_channels a !! i = Some (conv_in_channels args)
           /\ cn_channels a !! (i + 1) = Some (conv_out_channels args)
           /\ cn_kernel_size a !! i = Some (conv_kernel_size args)
           /\ cn_segments a !! i = Some (conv_segments args)
           /\ conv_rescale_output args = cn_rescale_output a
           /\ conv_periodicity args = cn_periodicity a.
Proof.
  intros Hrun. apply conv_init_inr in Hrun as (_ & l & h1 & Hloop & -> & ->).
  apply conv_loop_seq_inr in Hloop as (layers & -> & Hlen & Hbuilt & _ & Hlayers).
  exists layers. split; [reflexivity |]. do 2 (split; [assumption |]).
  intros i Hi. destruct (Hlayers i Hi) as (args & Hargs & _ & Hl).
  exists args. split; [exact Hl |].
  simpl in Hargs. unfold conv_layer_args in Hargs.
  destruct (cn_layer_type a !! i); simpl in Hargs; [| discriminate].
  destruct (cn_n a !! i); simpl in Hargs; [| discriminate].
  destruct (cn_channels a !! i); simpl in Hargs; [| discriminate].
  destruct (cn_channels a !! (i + 1)); simpl in Hargs; [| discriminate].
  destruct (cn_kernel_size a !! i); simpl in Hargs; [| discriminate].
  destruct (cn_segments a !! i); simpl in Hargs; [| discriminate].
  injection Hargs as <-. simpl. repeat split.
Qed.

(** X2. When the constructor returns, the layers it built chain: the output
    channels of each layer are the input channels of the next one. *)
Theorem conv_layers_chain a h net h' :
  HighOrderFullyConvolutionalNetwork_init a h = (inr net, h') ->
  exists layers : list module,
    built h' = built h ++ layers
    /\ forall i x y, layers !! i = Some x -> layers !! (S i) = Some y ->
         exists ax ay,
           conv_args_of x = Some ax /\ conv_args_of y = Some ay
           /\ conv_out_channels ax = conv_in_channels ay.
Proof.
  intros Hrun. apply conv_init_inr in Hrun as (_ & l & h1 & Hloop & _ & ->).
  apply conv_loop_seq_inr in Hloop as (layers & _ & Hlen & Hbuilt & _ & Hlayers).
  exists layers. split; [exact Hbuilt |].
  intros i x y Hx Hy.
  pose proof (lookup_lt_Some _ _ _ Hy) as Hi. rewrite Hlen in Hi.
  destruct (Hlayers i ltac:(lia)) as (ax & Hax & _ & Hlx).
  destruct (Hlayers (S i) Hi) as (ay & Hay & _ & Hly).
  rewrite Hx in Hlx. rewrite Hy in Hly. injection Hlx as ->. injection Hly as ->.
  exists ax, ay. split; [reflexivity |]. split; [reflexivity |].
  simpl in Hax, Hay. unfold conv_layer_args in Hax, Hay.
  replace (S i) with (i + 1) in Hay by lia.
  destruct (cn_layer_type a !! i); simpl in Hax; [| discriminate].
  destruct (cn_n a !! i); simpl in Hax; [| discriminate].
  destruct (cn_channels a !! i); simpl in Hax; [| discriminate].
  destruct (cn_channels a !! (i + 1)) as [c1 |]; simpl in Hax; [| discriminate].
  destruct (cn_kernel_size a !! i); simpl in Hax; [| discriminate].
  destruct (cn_segments a !! i); simpl in Hax; [| discriminate].
  destruct (cn_layer_type a !! (i + 1)); simpl in Hay; [| discriminate].
  destruct (cn_n a !! (i + 1)); simpl in Hay; [| discriminate].
  destruct (cn_channels a !! (i + 1 + 1)); simpl in Hay; [| discriminate].
  destruct (cn_kernel_size a !! (i + 1)); simpl in Hay; [| discriminate].
  destruct (cn_segments a !! (i + 1)); simpl in Hay; [| discriminate].
  injection Hax as <-. injection Hay as <-. reflexivity.
Qed.

(** X3. With at least two channels, per-layer lists that each have at least
    [len(channels) - 1] entries, and a factory that accepts every layer,
    the constructor returns a network, whether or not the lists have the
    lengths the error messages ask for. *)
Theorem conv_init_returns a h :
  (forall args, conv_accepts args = true) ->
  2 <= length (cn_channels a) ->
  length (cn_channels a) - 1 <= length (cn_layer_type a) ->
  length (cn_channels a) - 1 <= length (cn_n a) ->
  length (cn_channels a) - 1 <= length (cn_kernel_size a) ->
  length (cn_channels a) - 1 <= length (cn_segments a) ->
  exists net h', HighOrderFullyConvolutionalNetwork_init a h = (inr net, h').
Proof.
  intros Hacc Hch Hlt Hn Hks Hsg. unfold HighOrderFullyConvolutionalNetwork_init.
  rewrite lists_not_same_size_false, channels_not_one_more_false.
  assert (Hlen : (py_len (cn_channels a) <? 2)%Z = false)
    by (apply Z.ltb_ge; unfold py_len; lia).
  rewrite Hlen.
  destruct (conv_loop_seq_returns a (length (cn_channels a) - 1) 0 [] h) as (l & h1 & Hloop).
  { intros j Hj. destruct (proj2 (conv_layer_args_is_Some a j)) as [args Hargs]; [lia |].
    exists args. simpl. auto. }
  unfold eff_bind. rewrite Hloop. unfold nn_Sequential, eff_bind, fresh, eff_ret.
  eexists _, _. reflexivity.
Qed.

(** X4. With at least two channels and a factory that accepts every layer, a
    per-layer list with fewer than [len(channels) - 1] entries makes the
    constructor raise [IndexError] (from the layer loop, not from the
    checks before it). *)
Theorem conv_init_short_list a h :
  (forall args, conv_accepts args = true) ->
  2 <= length (cn_channels a) ->
  length (cn_layer_type a) < length (cn_channels a) - 1
  \/ length (cn_n a) < length (cn_channels a) - 1
  \/ length (cn_kernel_size a) < length (cn_channels a) - 1
  \/ length (cn_segments a) < length (cn_channels a) - 1 ->
  exists h', HighOrderFullyConvolutionalNetwork_init a h = (inl IndexError, h').
Proof.
  intros Hacc Hch Hshort. unfold HighOrderFullyConvolutionalNetwork_init.
  rewrite lists_not_same_size_false, channels_not_one_more_false.
  assert (Hlen : (py_len (cn_channels a) <? 2)%Z = false)
    by (apply Z.ltb_ge; unfold py_len; lia).
  rewrite Hlen.
  destruct (conv_loop_seq_IndexError a (length (cn_channels a) - 1) 0 [] h Hacc)
    as (h1 & Hloop).
  { set (m := Nat.min (Nat.min (length (cn_layer_type a)) (length (cn_n a)))
                      (Nat.min (length (cn_kernel_size a)) (length (cn_segments a)))).
    exists m. split; [lia |]. simpl.
    destruct (conv_layer_args a m) eqn:Hargs; [| reflexivity].
    assert (Hsome : is_Some (conv_layer_args a m)) by eauto.
    apply conv_layer_args_is_Some in Hsome. lia. }
  unfold eff_bind. rewrite Hloop. eauto.
Qed.

End ConvNetCalls.

(** The theorem at a network of two layers with a normalization. *)
Lemma conv_layers_follow_the_lists_witness :
  exists net h',
    HighOrderFullyConvolutionalNetwork_init (H := accept_all)
      (conv_example [3; 5]%Z [1; 8; 4]%Z (Some layer_norm)) heap0 = (inr net, h')
    /\ exists l0 l1 : module,
         module_children (conv_model net) = [layer_norm; l0; layer_norm; l1]
         /\ built h' = [l0; l1]
         /\ (conv_in_channels <$> conv_args_of l0) = Some 1%Z
         /\ (conv_out_channels <$> conv_args_of l0) = Some 8%Z
         /\ (conv_n <$> conv_args_of l1) = Some 5%Z.
Proof.
  eexists _, _. split; [vm_compute; reflexivity |].
  edestruct (conv_layers_follow_the_lists (H := accept_all)
               (conv_example [3; 5]%Z [1; 8; 4]%Z (Some layer_norm)) heap0)
    as (layers & Hch & Hlen & Hbuilt & Hlayers); [vm_compute; reflexivity |].
  destruct layers as [| l0 [| l1 [| ? ?]]]; try discriminate Hlen.
  exists l0, l1. split; [exact Hch |]. split; [exact Hbuilt |].
  destruct (Hlayers 0 ltac:(simpl; lia)) as (a0 & Hl0 & _ & _ & Hin & Hout & _).
  destruct (Hlayers 1 ltac:(simpl; lia)) as (a1 & Hl1 & _ & Hn & _).
  injection Hl0 as ->. injection Hl1 as ->. simpl in *.
  repeat split; congruence.
Defined.

(** The theorem at a network of two layers. *)
Lemma conv_layers_chain_witness :
  exists net h',
    HighOrderFullyConvolutionalNetwork_init (H := accept_all)
      (conv_example [3; 5]%Z [1; 8; 4]%Z None) heap0 = (inr net, h')
    /\ exists layers : list module,
         built h' = layers
         /\ forall i x y, layers !! i = Some x -> layers !! (S i) = Some y ->
              exists ax ay,
                conv_args_of x = Some ax /\ conv_args_of y = Some ay
                /\ conv_out_channels ax = conv_in_channels ay.
Proof.
  eexists _, _. split; [vm_compute; reflexivity |].
  eapply (conv_layers_chain (H := accept_all)
            (conv_example [3; 5]%Z [1; 8; 4]%Z None) heap0).
  vm_compute. reflexivity.
Defined.

(** The theorem at a call with two channels and three entries in [n]. *)
Lemma conv_init_returns_witness :
  exists net h',
    HighOrderFullyConvolutionalNetwork_init (H := accept_all)
      (conv_example [3; 4; 5]%Z [1; 2]%Z None) heap0 = (inr net, h').
Proof.
  apply (conv_init_returns (H := accept_all) (conv_example [3; 4; 5]%Z [1; 2]%Z None) heap0);
    [reflexivity | simpl; lia ..].
Defined.

(** The theorem at a call with three channels and one entry in [n]. *)
Lemma conv_init_short_list_witness :
  exists h',
    HighOrderFullyConvolutionalNetwork_init (H := accept_all)
      (conv_example [3]%Z [1; 8; 4]%Z None) heap0 = (inl IndexError, h').
Proof.
  apply (conv_init_short_list (H := accept_all) (conv_example [3]%Z [1; 8; 4]%Z None) heap0);
    [reflexivity | simpl; lia | right; left; simpl; lia].
Defined.

Section ConvNetErrors.
Context `{LayerFactory}.


End ConvNetErrors.

(** ** HighOrderMLP: the layers stage by stage *)


Section MLPLayers.
Context `{LayerFactory}.

(** The network and the heap that [HighOrderMLP.__init__] leaves when it
    returns, object by object. *)
Lemma HighOrderMLP_init_layers a h net h' :
  HighOrderMLP_init a h = (inr net, h') ->
  let nl := mlp_non_linearity a in
  let c := non_linearity_count nl in
  let i := next_id h in
  let blocks := hidden_blocks a (py_or (mlp_n_hidden a) (mlp_n a))
                  (Z.to_nat (mlp_hidden_layers a)) (S i) in
  let j := S i + Z.to_nat (mlp_hidden_layers a) * (c + 1) in
  let input := Module i (HighOrderFc (input_layer_args a)) [] in
  let output := Module (j + c + c) (HighOrderFc (output_layer_args a)) [] in
  let children := input :: concat (map block_entries blocks)
                    ++ non_linearity_entries nl j ++ non_linearity_entries nl (j + c)
                    ++ [output] in
  model net = Module (S (j + c + c)) Sequential children
  /\ built h' = built h ++ [input] ++ map snd blocks ++ [output]
  /\ next_id h' = S (S (j + c + c)).
Proof.
  unfold HighOrderMLP_init. intros Hrun.
  apply eff_bind_inr in Hrun as (input & h0 & Hin & Hrun).
  apply eff_bind_inr in Hrun as (l1 & h1 & Hloop & Hrun).
  apply eff_bind_inr in Hrun as (l2 & h2 & Hnl1 & Hrun).
  apply eff_bind_inr in Hrun as (l3 & h3 & Hnl2 & Hrun).
  apply eff_bind_inr in Hrun as (output & h4 & Hout & Hrun).
  apply eff_bind_inr in Hrun as (sq & h5 & Hseq & Hrun).
  apply eff_ret_inr in Hrun as [-> ->].
  apply high_order_fc_layers_inr in Hin as (-> & Hid0 & Hb0).
  apply hidden_loop_inr in Hloop as (-> & Hid1 & Hb1).
  apply append_non_linearity_inr in Hnl1 as (-> & Hid2 & Hb2).
  apply append_non_linearity_inr in Hnl2 as (-> & Hid3 & Hb3).
  apply high_order_fc_layers_inr in Hout as (-> & Hid4 & Hb4).
  apply nn_Sequential_inr in Hseq as (-> & Hid5 & Hb5).
  simpl. rewrite Hid0 in *. rewrite Hid1 in *. rewrite Hid2 in *. rewrite Hid3 in *.
  rewrite Hid4 in *.
  split; [| split].
  - unfold input_layer_args, output_layer_args. rewrite <- !app_assoc. reflexivity.
  - rewrite Hb5, Hb4, Hb3, Hb2, Hb1, Hb0. rewrite <- !app_assoc. reflexivity.
  - exact Hid5.
Qed.

Lemma map_replicate {A B : Type} (f : A -> B) k x :
  map f (replicate k x) = replicate k (f x).
Proof. induction k as [| k IH]; simpl; [| rewrite IH]; reflexivity. Qed.

Lemma hidden_blocks_args a n_hidden k i :
  map fc_args_of (map snd (hidden_blocks a n_hidden k i))
  = replicate k (Some (hidden_layer_args a n_hidden)).
Proof. revert i. induction k as [| k IH]; intros i; simpl; [| rewrite IH]; reflexivity. Qed.

Lemma length_block_entries a n_hidden k i :
  length (concat (map block_entries (hidden_blocks a n_hidden k i)))
  = k * (length (option_list (mlp_normalization a))
         + non_linearity_count (mlp_non_linearity a) + 1).
Proof.
  revert i. induction k as [| k IH]; intros i; simpl; [reflexivity |].
  rewrite length_app, IH. unfold block_entries, hidden_block. simpl.
  rewrite !length_app. simpl.
  destruct (mlp_non_linearity a); simpl; lia.
Qed.

(** X6. The layers the factory has built when [HighOrderMLP.__init__] returns
    are, in order: one input layer from [in_width] to [hidden_width] with
    [in_segments]; [hidden_layers] hidden layers from [hidden_width] to
    [hidden_width] with [hidden_segments]; one output layer from
    [hidden_width] to [out_width] with [out_segments]. So the output width
    of each layer is the input width of the next. Every layer has the
    [layer_type], [scale], [rescale_output] and [periodicity] of the
    call. *)
Theorem mlp_layers_by_stage a h net h' :
  HighOrderMLP_init a h = (inr net, h') ->
  exists layers : list module,
    built h' = built h ++ layers
    /\ map (fun m => (fun x => (fc_in_features x, fc_out_features x)) <$> fc_args_of m) layers
       = Some (mlp_in_width a, mlp_hidden_width a)
         :: replicate (Z.to_nat (mlp_hidden_layers a))
              (Some (mlp_hidden_width a, mlp_hidden_width a))
         ++ [Some (mlp_hidden_width a, mlp_out_width a)]
    /\ map (fun m => fc_segments <$> fc_args_of m) layers
       = Some (mlp_in_segments a)
         :: replicate (Z.to_nat (mlp_hidden_layers a)) (Some (mlp_hidden_segments a))
         ++ [Some (mlp_out_segments a)]
    /\ Forall (fun m => exists x, fc_args_of m = Some x
                         /\ fc_layer_type x = mlp_layer_type a
                         /\ fc_scale x = mlp_scale a
                         /\ fc_rescale_output x = mlp_rescale_output a
                         /\ fc_periodicity x = mlp_periodicity a) layers.
Proof.
  intros Hrun. apply HighOrderMLP_init_layers in Hrun as (_ & Hbuilt & _).
  eexists. split; [exact Hbuilt |].
  set (nh := py_or (mlp_n_hidden a) (mlp_n a)).
  set (k := Z.to_nat (mlp_hidden_layers a)).
  pose proof (hidden_blocks_args a nh k (S (next_id h))) as Hargs.
  split; [| split].
  - simpl. f_equal. rewrite map_app. simpl. f_equal.
    rewrite <- (map_map fc_args_of), Hargs, map_replicate. reflexivity.
  - simpl. f_equal. rewrite map_app. simpl. f_equal.
    rewrite <- (map_map fc_args_of), Hargs, map_replicate. reflexivity.
  - simpl. constructor; [eexists; repeat split |].
    apply Forall_app. split; [| constructor; [eexists; repeat split | constructor]].
    apply Forall_map. eapply Forall_impl; [apply hidden_blocks_spec |].
    intros b (j & _ & ->). eexists. repeat split.
Qed.

(** X7. A per-stage order that is set to [0] is treated as not set: the stage
    is built with the global order [n]. Any other value set for a stage is
    the order of that stage. *)
Theorem zero_order_counts_as_unset a h net h' :
  HighOrderMLP_init a h = (inr net, h') ->
  exists (input : module) (hidden : list module) (output : module),
    built h' = built h ++ [input] ++ hidden ++ [output]
    /\ (forall v, mlp_n_in a = Some v ->
          layer_order input = Some (if (v =? 0)%Z then mlp_n a else v))
    /\ (forall v, mlp_n_hidden a = Some v ->
          Forall (fun m => layer_order m = Some (if (v =? 0)%Z then mlp_n a else v)) hidden)
    /\ (forall v, mlp_n_out a = Some v ->
          layer_order output = Some (if (v =? 0)%Z then mlp_n a else v)).
Proof.
  intros Hrun. apply HighOrderMLP_init_layers in Hrun as (_ & Hbuilt & _).
  eexists _, _, _. split; [exact Hbuilt |]. split; [| split].
  - intros v Hv. simpl. unfold layer_order. simpl. rewrite Hv. reflexivity.
  - intros v Hv. rewrite Hv. apply Forall_map.
    eapply Forall_impl; [apply hidden_blocks_spec |]. intros b (j & _ & ->). reflexivity.
  - intros v Hv. simpl. unfold layer_order. simpl. rewrite Hv. reflexivity.
Qed.

(** X8. The number of entries of the layer list and of layers built, from the
    arguments: a negative [hidden_layers] counts as zero. *)
Theorem mlp_layer_count a h net h' :
  HighOrderMLP_init a h = (inr net, h') ->
  length (module_children (model net))
    = 2 + Z.to_nat (mlp_hidden_layers a)
          * (length (option_list (mlp_normalization a))
             + non_linearity_count (mlp_non_linearity a) + 1)
        + 2 * non_linearity_count (mlp_non_linearity a)
  /\ length (built h') = length (built h) + 2 + Z.to_nat (mlp_hidden_layers a)
  /\ ((mlp_hidden_layers a <= 0)%Z ->
      length (module_children (model net))
        = 2 + 2 * non_linearity_count (mlp_non_linearity a)
      /\ length (built h') = length (built h) + 2).
Proof.
  intros Hrun. apply HighOrderMLP_init_layers in Hrun as (Hmodel & Hbuilt & _).
  rewrite Hmodel, Hbuilt. simpl.
  rewrite !length_app, length_block_entries. simpl.
  rewrite !length_app, length_map, length_hidden_blocks. simpl.
  assert (Hnl : forall i, length (non_linearity_entries (mlp_non_linearity a) i)
                          = non_linearity_count (mlp_non_linearity a))
    by (intros i; destruct (mlp_non_linearity a); reflexivity).
  rewrite !Hnl.
  split; [lia |]. split; [lia |].
  intros Hneg. replace (Z.to_nat (mlp_hidden_layers a)) with 0 by lia. lia.
Qed.

(** X9. Without a nonlinearity the layer list holds the input layer, then for
    each hidden layer the normalization (if any) and the hidden layer, then
    the output layer; without a normalization either, it holds the layers
    the factory built and nothing else. *)
Theorem mlp_without_non_linearity a h net h' :
  HighOrderMLP_init a h = (inr net, h') ->
  mlp_non_linearity a = None ->
  exists (input : module) (hidden : list module) (output : module),
    built h' = built h ++ [input] ++ hidden ++ [output]
    /\ length hidden = Z.to_nat (mlp_hidden_layers a)
    /\ module_children (model net)
       = input :: concat (map (fun layer => option_list (mlp_normalization a) ++ [layer])
                              hidden)
           ++ [output]
    /\ (mlp_normalization a = None ->
        module_children (model net) = [input] ++ hidden ++ [output]).
Proof.
  intros Hrun Hnl. apply HighOrderMLP_init_layers in Hrun as (Hmodel & Hbuilt & _).
  rewrite Hnl in Hmodel, Hbuilt. simpl in Hmodel, Hbuilt.
  set (bs := hidden_blocks a (py_or (mlp_n_hidden a) (mlp_n a))
               (Z.to_nat (mlp_hidden_layers a)) (S (next_id h))) in *.
  assert (Hentries : concat (map block_entries bs)
          = concat (map (fun layer => option_list (mlp_normalization a) ++ [layer])
                        (map snd bs))).
  { rewrite map_map. f_equal. apply map_ext_Forall.
    eapply Forall_impl; [apply hidden_blocks_spec |]. intros b (j & _ & ->).
    unfold block_entries, hidden_block. simpl. rewrite Hnl. simpl.
    rewrite app_nil_r. reflexivity. }
  eexists _, (map snd bs), _. split; [exact Hbuilt |].
  split; [rewrite length_map; apply length_hidden_blocks |].
  rewrite Hmodel. simpl. rewrite Hentries. split; [reflexivity |].
  intros Hnm. rewrite Hnm. simpl. do 2 f_equal.
  generalize (map snd bs). intros l.
  induction l as [| x l IH]; simpl; [reflexivity | f_equal; exact IH].
Qed.

End MLPLayers.

Section MLPCalls.
Context `{LayerFactory}.

Lemma high_order_fc_layers_returns x h :
  fc_accepts x = true ->
  high_order_fc_layers x h
  = (inr (Module (next_id h) (HighOrderFc x) []),
     {| next_id := S (next_id h);
        built := built h ++ [Module (next_id h) (HighOrderFc x) []] |}).
Proof. unfold high_order_fc_layers. intros ->. reflexivity. Qed.

Lemma high_order_fc_layers_inl x h e h' :
  high_order_fc_layers x h = (inl e, h') ->
  e = ExternalError "high_order_fc_layers" /\ fc_accepts x = false.
Proof.
  unfold high_order_fc_layers. destruct (fc_accepts x); [discriminate |].
  intros [= <- <-]. auto.
Qed.

Lemma append_non_linearity_returns nl l h :
  exists l' h', append_non_linearity nl l h = (inr l', h').
Proof. destruct nl; simpl; eexists _, _; reflexivity. Qed.

Lemma hidden_loop_returns a n_hidden k : forall l h,
  fc_accepts (hidden_layer_args a n_hidden) = true ->
  exists l' h', hidden_loop a n_hidden k l h = (inr l', h').
Proof.
  induction k as [| k IH]; intros l h Hacc; simpl.
  - eexists _, _. reflexivity.
  - unfold eff_bind.
    destruct (append_non_linearity_returns (mlp_non_linearity a)
                (append_normalization (mlp_normalization a) l) h) as (l1 & h1 & ->).
    rewrite high_order_fc_layers_returns by exact Hacc. apply IH. exact Hacc.
Qed.

Lemma hidden_loop_inl a n_hidden k : forall l h e h',
  hidden_loop a n_hidden k l h = (inl e, h') ->
  e = ExternalError "high_order_fc_layers"
  /\ fc_accepts (hidden_layer_args a n_hidden) = false.
Proof.
  induction k as [| k IH]; intros l h e h' Hrun; simpl in Hrun; [discriminate |].
  apply eff_bind_inl in Hrun as [Hnl | (l1 & h1 & _ & Hrun)].
  - destruct (append_non_linearity_returns (mlp_non_linearity a)
                (append_normalization (mlp_normalization a) l) h) as (? & ? & Hret).
    congruence.
  - apply eff_bind_inl in Hrun as [Hfc | (hid & h2 & _ & Hrun)].
    + by apply high_order_fc_layers_inl in Hfc.
    + by apply IH in Hrun.
Qed.

(** X10. [HighOrderMLP.__init__] checks none of its arguments: it returns
    whenever the factory accepts the argument records of the three stages,
    whatever the widths, orders and number of hidden layers are. *)
Theorem mlp_init_returns a h :
  fc_accepts (input_layer_args a) = true ->
  fc_accepts (hidden_layer_args a (py_or (mlp_n_hidden a) (mlp_n a))) = true ->
  fc_accepts (output_layer_args a) = true ->
  exists net h', HighOrderMLP_init a h = (inr net, h').
Proof.
  intros Hin Hhid Hout. unfold HighOrderMLP_init, eff_bind.
  rewrite high_order_fc_layers_returns by exact Hin.
  match goal with
  | |- context [hidden_loop a ?nh ?k ?l ?h0] =>
      destruct (hidden_loop_returns a nh k l h0 Hhid) as (l1 & h1 & ->)
  end.
  destruct (append_non_linearity_returns (mlp_non_linearity a) l1 h1) as (l2 & h2 & ->).
  destruct (append_non_linearity_returns (mlp_non_linearity a) l2 h2) as (l3 & h3 & ->).
  rewrite high_order_fc_layers_returns by exact Hout.
  eexists _, _. reflexivity.
Qed.

(** The only exception [HighOrderMLP.__init__] raises is the one the layer
    factory raises when it rejects the arguments of a stage. *)
Lemma mlp_init_raises_only_with_the_factory a h e h' :
  HighOrderMLP_init a h = (inl e, h') ->
  e = ExternalError "high_order_fc_layers"
  /\ (fc_accepts (input_layer_args a) = false
      \/ fc_accepts (hidden_layer_args a (py_or (mlp_n_hidden a) (mlp_n a))) = false
      \/ fc_accepts (output_layer_args a) = false).
Proof.
  unfold HighOrderMLP_init. intros Hrun.
  apply eff_bind_inl in Hrun as [Hin | (input & h0 & _ & Hrun)].
  { apply high_order_fc_layers_inl in Hin as [-> Hrej]. auto. }
  apply eff_bind_inl in Hrun as [Hloop | (l1 & h1 & _ & Hrun)].
  { apply hidden_loop_inl in Hloop as [-> Hrej]. auto. }
  apply eff_bind_inl in Hrun as [Hnl | (l2 & h2 & _ & Hrun)].
  { destruct (append_non_linearity_returns (mlp_non_linearity a) l1 h1) as (? & ? & Hret).
    congruence. }
  apply eff_bind_inl in Hrun as [Hnl | (l3 & h3 & _ & Hrun)].
  { destruct (append_non_linearity_returns (mlp_non_linearity a) l2 h2) as (? & ? & Hret).
    congruence. }
  apply eff_bind_inl in Hrun as [Hout | (output & h4 & _ & Hrun)].
  { apply high_order_fc_layers_inl in Hout as [-> Hrej]. auto. }
  unfold nn_Sequential, eff_bind, fresh, eff_ret in Hrun. discriminate.
Qed.

End MLPCalls.

(** The theorem at a network with one hidden layer. *)
Lemma mlp_layers_by_stage_witness :
  exists net h',
    HighOrderMLP_init (H := accept_all) (mlp_example_orders None None None) heap0
      = (inr net, h')
    /\ exists layers : list module,
         built h' = layers
         /\ map (fun m => (fun x => (fc_in_features x, fc_out_features x)) <$> fc_args_of m)
                layers
            = [Some (2, 4); Some (4, 4); Some (4, 1)]%Z
         /\ map (fun m => fc_segments <$> fc_args_of m) layers
            = [Some (Some 1); Some (Some 2); Some (Some 3)]%Z.
Proof.
  eexists _, _. split; [vm_compute; reflexivity |].
  edestruct (mlp_layers_by_stage (H := accept_all) (mlp_example_orders None None None) heap0)
    as (layers & Hbuilt & Hwidths & Hsegments & _); [vm_compute; reflexivity |].
  exists layers. split; [exact Hbuilt |]. split; [exact Hwidths | exact Hsegments].
Defined.

(** The theorem at a network whose input order is set to 0, hidden order
    to 5 and output order is not set, with global order 3. *)
Lemma zero_order_counts_as_unset_witness :
  exists net h',
    HighOrderMLP_init (H := accept_all) (mlp_example_orders (Some 0%Z) (Some 5%Z) None) heap0
      = (inr net, h')
    /\ exists (input : module) (hidden : list module) (output : module),
         built h' = [input] ++ hidden ++ [output]
         /\ layer_order input = Some 3%Z
         /\ Forall (fun m => layer_order m = Some 5%Z) hidden.
Proof.
  eexists _, _. split; [vm_compute; reflexivity |].
  edestruct (zero_order_counts_as_unset (H := accept_all)
               (mlp_example_orders (Some 0%Z) (Some 5%Z) None) heap0)
    as (input & hidden & output & Hbuilt & Hin & Hhid & _); [vm_compute; reflexivity |].
  exists input, hidden, output. split; [exact Hbuilt |].
  split; [exact (Hin 0%Z eq_refl) | exact (Hhid 5%Z eq_refl)].
Defined.

(** The theorem at a call with [hidden_layers = -2], a normalization and a
    nonlinearity. *)
Lemma mlp_layer_count_witness :
  exists net h',
    HighOrderMLP_init (H := accept_all) (mlp_example (-2) (Some "ReLU") (Some layer_norm))
      heap0 = (inr net, h')
    /\ length (module_children (model net)) = 4
    /\ length (built h') = 2.
Proof.
  eexists _, _. split; [vm_compute; reflexivity |].
  edestruct (mlp_layer_count (H := accept_all)
               (mlp_example (-2) (Some "ReLU") (Some layer_norm)) heap0)
    as (_ & _ & Hneg); [vm_compute; reflexivity |].
  apply Hneg. simpl. lia.
Defined.

(** The theorem at a network with two hidden layers and a normalization. *)
Lemma mlp_without_non_linearity_witness :
  exists net h',
    HighOrderMLP_init (H := accept_all) (mlp_example 2 None (Some layer_norm)) heap0
      = (inr net, h')
    /\ exists (input : module) (hidden : list module) (output : module),
         built h' = [input] ++ hidden ++ [output]
         /\ length hidden = 2
         /\ module_children (model net)
            = input :: concat (map (fun layer => [layer_norm; layer]) hidden) ++ [output].
Proof.
  eexists _, _. split; [vm_compute; reflexivity |].
  edestruct (mlp_without_non_linearity (H := accept_all)
               (mlp_example 2 None (Some layer_norm)) heap0)
    as (input & hidden & output & Hbuilt & Hlen & Hch & _);
    [vm_compute; reflexivity | reflexivity |].
  exists input, hidden, output. split; [exact Hbuilt |]. split; [exact Hlen | exact Hch].
Defined.

(** The theorem at a call with negative widths and a negative order. *)
Lemma mlp_init_returns_witness :
  exists net h',
    HighOrderMLP_init (H := accept_all)
      {| mlp_layer_type := "";
         mlp_n := -1;
         mlp_in_width := -2;
         mlp_out_width := 0;
         mlp_hidden_layers := -3;
         mlp_hidden_width := -4;
         mlp_scale := 2.0;
         mlp_n_in := None;
         mlp_n_out := None;
         mlp_n_hidden := None;
         mlp_rescale_output := false;
         mlp_periodicity := None;
         mlp_non_linearity := None;
         mlp_in_segments := None;
         mlp_out_segments := None;
         mlp_hidden_segments := None;
         mlp_normalization := None |} heap0 = (inr net, h').
Proof. apply (mlp_init_returns (H := accept_all)); reflexivity. Defined.


(* ================================================================== *)
(** * Part IV: what [modules()] yields and what the engine pairs        *)
(* ================================================================== *)


Lemma named_modules_unfold i c children memo :
  named_modules (Module i c children) memo =
  if decide (i ∈ memo) then ([], memo)
  else let '(sub, memo') := walk_children children ({[ i ]} ∪ memo) in
       (Module i c children :: sub, memo').
Proof. reflexivity. Qed.

Lemma walk_children_leaves l :
  Forall (fun x => module_children x = []) l ->
  forall memo, exists memo', walk_children l memo = (first_visits l memo, memo').
Proof.
  induction 1 as [| x l Hx _ IH]; intros memo; simpl; [eauto |].
  destruct x as [i c ch]. simpl in Hx. subst ch.
  rewrite named_modules_unfold. simpl.
  destruct (decide (i ∈ memo)).
  - destruct (IH memo) as [memo' ->]. eauto.
  - destruct (IH ({[i]} ∪ memo)) as [memo' ->]. eauto.
Qed.

(** [modules()] of a module whose children have no children. *)
Lemma modules_of_leaves i c l :
  Forall (fun x => module_children x = []) l ->
  modules (Module i c l) = Module i c l :: first_visits l {[ i ]}.
Proof.
  intros Hl. unfold modules. rewrite named_modules_unfold.
  destruct (decide (i ∈ (∅ : gset nat))) as [Hin | _];
    [by apply elem_of_empty in Hin |].
  destruct (walk_children_leaves l Hl ({[i]} ∪ ∅)) as [memo' ->]. simpl.
  rewrite (right_id_L ∅ (∪)). reflexivity.
Qed.

(** No identity is yielded twice, and none that is in the memo. *)
Lemma first_visits_NoDup l : forall memo,
  NoDup (map module_id (first_visits l memo))
  /\ forall x, x ∈ first_visits l memo -> module_id x ∉ memo.
Proof.
  induction l as [| y l IH]; intros memo; simpl.
  - split; [constructor | intros x Hx; inversion Hx].
  - destruct (decide (module_id y ∈ memo)) as [Hin | Hnotin]; [apply IH |].
    destruct (IH ({[module_id y]} ∪ memo)) as [Hnd Hfresh]. split.
    + simpl. constructor; [| exact Hnd].
      intros Hy. apply list_elem_of_In, in_map_iff in Hy as (x & Hid & Hx).
      apply list_elem_of_In, Hfresh in Hx. apply Hx.
      apply elem_of_union_l, elem_of_singleton. exact Hid.
    + intros x Hx. apply elem_of_cons in Hx as [-> | Hx]; [exact Hnotin |].
      apply Hfresh in Hx. intros Hm. apply Hx. apply elem_of_union_r. exact Hm.
Qed.

(** Every entry is yielded, unless its identity is in the memo. *)
Lemma first_visits_complete l : forall memo x,
  x ∈ l -> module_id x ∉ memo ->
  exists y, y ∈ first_visits l memo /\ module_id y = module_id x.
Proof.
  induction l as [| z l IH]; intros memo x Hx Hnotin; [inversion Hx |]. simpl.
  destruct (decide (module_id z ∈ memo)) as [Hz | Hz].
  - apply elem_of_cons in Hx as [-> | Hx]; [contradiction |]. by apply IH.
  - destruct (decide (module_id x = module_id z)) as [Heq | Hne].
    + exists z. split; [by left | auto].
    + apply elem_of_cons in Hx as [-> | Hx]; [contradiction |].
      destruct (IH ({[module_id z]} ∪ memo) x Hx) as (y & Hy & Hid).
      { intros [Hs | Hm]%elem_of_union; [| contradiction].
        apply elem_of_singleton in Hs. contradiction. }
      exists y. split; [by right | exact Hid].
Qed.

Lemma first_visits_fresh x l memo b top :
  seen_below memo b top -> module_id x = b -> b < top ->
  first_visits (x :: l) memo = x :: first_visits l ({[ b ]} ∪ memo)
  /\ seen_below ({[ b ]} ∪ memo) (S b) top.
Proof.
  intros Hseen Hid Hlt. simpl. rewrite Hid. split.
  - destruct (decide (b ∈ memo)) as [Hin | _]; [| reflexivity].
    apply Hseen in Hin. lia.
  - intros y [Hy | Hy]%elem_of_union.
    + apply elem_of_singleton in Hy. lia.
    + apply Hseen in Hy. lia.
Qed.

Lemma first_visits_seen x l memo :
  module_id x ∈ memo -> first_visits (x :: l) memo = first_visits l memo.
Proof. intros Hin. simpl. destruct (decide (module_id x ∈ memo)); [reflexivity | contradiction]. Qed.

(** The entries a nonlinearity statement appends are yielded. *)
Lemma first_visits_non_linearity nl i l memo top :
  seen_below memo i top -> i + non_linearity_count nl <= top ->
  exists memo',
    first_visits (non_linearity_entries nl i ++ l) memo
    = non_linearity_entries nl i ++ first_visits l memo'
    /\ seen_below memo' (i + non_linearity_count nl) top
    /\ memo ⊆ memo'.
Proof.
  intros Hseen Hle. destruct nl as [cls |]; simpl in *.
  - destruct (first_visits_fresh (Module i (NonLinearity cls) []) l memo i top)
      as [Heq Hseen']; [assumption | reflexivity | lia |].
    exists ({[i]} ∪ memo). simpl in Heq. rewrite Heq.
    split; [reflexivity |]. split; [by rewrite Nat.add_1_r | apply union_subseteq_r].
  - exists memo. rewrite Nat.add_0_r. auto.
Qed.

Section MLPModules.
Context (a : mlp_args) (n_hidden : Z) (top : nat).
Let c := non_linearity_count (mlp_non_linearity a).

(** The hidden blocks, traversed after the normalization has been seen:
    every block yields its nonlinearity and its hidden layer. *)
Lemma first_visits_blocks k : forall i0 memo l,
  (forall nm, mlp_normalization a = Some nm -> module_id nm ∈ memo) ->
  seen_below memo i0 top ->
  i0 + k * (c + 1) <= top ->
  exists memo',
    first_visits (concat (map block_entries (hidden_blocks a n_hidden k i0)) ++ l) memo
    = concat (map block_entries (hidden_blocks (without_normalization a) n_hidden k i0))
        ++ first_visits l memo'
    /\ seen_below memo' (i0 + k * (c + 1)) top
    /\ memo ⊆ memo'.
Proof.
  induction k as [| k IH]; intros i0 memo l Hnm Hseen Hle.
  - exists memo. simpl. rewrite Nat.add_0_r. auto.
  - simpl. unfold block_entries at 1 3, hidden_block. simpl. fold c in Hle |- *.
    rewrite <- !app_assoc.
    assert (Hskip : forall rest,
              first_visits (option_list (mlp_normalization a) ++ rest) memo
              = first_visits rest memo).
    { intros rest. destruct (mlp_normalization a) as [nm |] eqn:Hn; [| reflexivity].
      apply first_visits_seen. by apply Hnm. }
    rewrite Hskip.
    destruct (first_visits_non_linearity (mlp_non_linearity a) i0
                ([Module (i0 + c) (HighOrderFc (hidden_layer_args a n_hidden)) []]
                 ++ concat (map block_entries (hidden_blocks a n_hidden k (i0 + c + 1))) ++ l)
                memo top Hseen) as (memo1 & -> & Hseen1 & Hsub1); [fold c; lia |].
    fold c in Hseen1.
    destruct (first_visits_fresh (Module (i0 + c) (HighOrderFc (hidden_layer_args a n_hidden)) [])
                (concat (map block_entries (hidden_blocks a n_hidden k (i0 + c + 1))) ++ l)
                memo1 (i0 + c) top) as [Heq Hseen2]; [assumption | reflexivity | lia |].
    simpl app at 2. rewrite Heq.
    destruct (IH (i0 + c + 1) ({[i0 + c]} ∪ memo1) l) as (memo' & -> & Hseen' & Hsub').
    + intros nm Hn. apply elem_of_union_r, Hsub1. by apply Hnm.
    + by rewrite Nat.add_1_r.
    + lia.
    + exists memo'. split; [rewrite <- !app_assoc; reflexivity |]. split.
      * intros x Hx. apply Hseen' in Hx. simpl. lia.
      * etrans; [exact Hsub1 |]. etrans; [apply union_subseteq_r | exact Hsub'].
Qed.

Lemma hidden_blocks_leaves k : forall i0,
  (forall nm, mlp_normalization a = Some nm -> module_children nm = []) ->
  Forall (fun x => module_children x = [])
         (concat (map block_entries (hidden_blocks a n_hidden k i0))).
Proof.
  induction k as [| k IH]; intros i0 Hnm; simpl; [constructor |].
  apply Forall_app. split; [| by apply IH].
  unfold block_entries, hidden_block. simpl. rewrite !Forall_app. split; [split |].
  - destruct (mlp_normalization a) as [nm |]; simpl; [| constructor].
    constructor; [by apply Hnm | constructor].
  - destruct (mlp_non_linearity a); simpl; repeat constructor.
  - repeat constructor.
Qed.

End MLPModules.

Lemma first_visits_tail nl j output memo top :
  seen_below memo j top ->
  j + non_linearity_count nl + non_linearity_count nl < top ->
  module_id output = j + non_linearity_count nl + non_linearity_count nl ->
  first_visits (non_linearity_entries nl j
                ++ non_linearity_entries nl (j + non_linearity_count nl) ++ [output]) memo
  = non_linearity_entries nl j
    ++ non_linearity_entries nl (j + non_linearity_count nl) ++ [output].
Proof.
  intros Hseen Hlt Hid.
  destruct (first_visits_non_linearity nl j
              (non_linearity_entries nl (j + non_linearity_count nl) ++ [output])
              memo top Hseen) as (memo1 & -> & Hseen1 & _); [lia |].
  destruct (first_visits_non_linearity nl (j + non_linearity_count nl) [output]
              memo1 top Hseen1) as (memo2 & -> & Hseen2 & _); [lia |].
  destruct (first_visits_fresh output [] memo2 _ top Hseen2 Hid Hlt) as [-> _].
  reflexivity.
Qed.

Section MLPTraversal.
Context `{LayerFactory}.


(** [modules()] of the container of a [HighOrderMLP], object by object:
    the container, the input layer, the normalization if there is a hidden
    layer, then for each hidden layer its nonlinearity and the layer, the
    two nonlinearities and the output layer. *)
Lemma mlp_modules a h net h' :
  HighOrderMLP_init a h = (inr net, h') ->
  plain_normalization a h ->
  let nl := mlp_non_linearity a in
  let c := non_linearity_count nl in
  let i := next_id h in
  let k := Z.to_nat (mlp_hidden_layers a) in
  let j := S i + k * (c + 1) in
  modules (model net)
  = model net
    :: Module i (HighOrderFc (input_layer_args a)) []
    :: match k with O => [] | S _ => option_list (mlp_normalization a) end
    ++ concat (map block_entries
                 (hidden_blocks (without_normalization a)
                    (py_or (mlp_n_hidden a) (mlp_n a)) k (S i)))
    ++ non_linearity_entries nl j ++ non_linearity_entries nl (j + c)
    ++ [Module (j + c + c) (HighOrderFc (output_layer_args a)) []].
Proof.
  intros Hrun Hplain. apply HighOrderMLP_init_layers in Hrun as (Hmodel & _ & _).
  cbv zeta in Hmodel |- *. rewrite Hmodel. clear Hmodel.
  set (c := non_linearity_count (mlp_non_linearity a)) in *.
  set (k := Z.to_nat (mlp_hidden_layers a)) in *.
  set (nh := py_or (mlp_n_hidden a) (mlp_n a)) in *.
  set (i := next_id h) in *.
  set (j := S i + k * (c + 1)) in *.
  set (sid := S (j + c + c)).
  set (T := non_linearity_entries (mlp_non_linearity a) j
            ++ non_linearity_entries (mlp_non_linearity a) (j + c)
            ++ [Module (j + c + c) (HighOrderFc (output_layer_args a)) []]).
  rewrite modules_of_leaves.
  2:{ constructor; [reflexivity |]. apply Forall_app. split.
      - apply hidden_blocks_leaves. intros nm Hnm. by apply Hplain.
      - destruct (mlp_non_linearity a); simpl; repeat constructor. }
  f_equal.
  destruct (first_visits_fresh (Module i (HighOrderFc (input_layer_args a)) [])
              (concat (map block_entries (hidden_blocks a nh k (S i))) ++ T)
              {[sid]} i sid) as [-> Hseen1]; [| reflexivity | unfold sid, j; lia |].
  { intros x Hx. apply elem_of_singleton in Hx. lia. }
  f_equal.
  assert (Htail : forall memo, seen_below memo j sid -> first_visits T memo = T).
  { intros memo Hseen. apply (first_visits_tail _ _ _ _ sid); [exact Hseen | | reflexivity].
    fold c. unfold sid. lia. }
  destruct (mlp_normalization a) as [nm |] eqn:Hnm.
  - destruct (Hplain nm Hnm) as [_ Hold]. fold i in Hold.
    destruct k as [| k'] eqn:Hk.
    + simpl. apply Htail. intros x Hx. apply Hseen1 in Hx. unfold j. lia.
    + assert (Hfirst : forall rest,
                first_visits (nm :: rest) ({[i]} ∪ {[sid]})
                = nm :: first_visits (nm :: rest) ({[module_id nm]} ∪ ({[i]} ∪ {[sid]}))).
      { intros rest.
        rewrite (first_visits_seen nm rest ({[module_id nm]} ∪ ({[i]} ∪ {[sid]})));
          [| apply elem_of_union_l, elem_of_singleton; reflexivity].
        simpl. destruct (decide (module_id nm ∈ ({[i]} ∪ {[sid]} : gset nat)))
          as [[Hin | Hin]%elem_of_union | _]; [| | reflexivity].
        - apply elem_of_singleton in Hin. lia.
        - apply elem_of_singleton in Hin. unfold sid, j in Hin. lia. }
      assert (Hsplit : exists rest,
                concat (map block_entries (hidden_blocks a nh (S k') (S i))) ++ T
                = nm :: rest).
      { simpl. unfold block_entries at 1, hidden_block. simpl. rewrite Hnm. simpl.
        eexists. reflexivity. }
      destruct Hsplit as [rest Hsplit]. rewrite Hsplit, Hfirst, <- Hsplit.
      destruct (first_visits_blocks a nh sid (S k') (S i)
                  ({[module_id nm]} ∪ ({[i]} ∪ {[sid]})) T)
        as (memo' & -> & Hseen' & _).
      * intros nm' Hn. rewrite Hnm in Hn. injection Hn as <-.
        apply elem_of_union_l, elem_of_singleton. reflexivity.
      * intros x [Hx | Hx]%elem_of_union.
        -- apply elem_of_singleton in Hx. lia.
        -- apply Hseen1 in Hx. lia.
      * fold c. unfold sid, j. lia.
      * rewrite Htail; [reflexivity |].
        intros x Hx. apply Hseen' in Hx. fold c in Hx. unfold j. lia.
  - destruct (first_visits_blocks a nh sid k (S i) ({[i]} ∪ {[sid]}) T)
      as (memo' & -> & Hseen' & _).
    + intros nm' Hn. rewrite Hnm in Hn. discriminate Hn.
    + exact Hseen1.
    + fold c. unfold sid, j. lia.
    + rewrite Htail.
      * destruct k; reflexivity.
      * intros x Hx. apply Hseen' in Hx. fold c in Hx. unfold j. lia.
Qed.

End MLPTraversal.


Section MLPEngine.
Context `{LayerFactory}.

Lemma non_linearity_entries_markers nl i :
  map is_weight_layer (non_linearity_entries nl i)
    = replicate (non_linearity_count nl) false
  /\ List.filter is_weight_layer (non_linearity_entries nl i) = []
  /\ List.filter (fun m => negb (is_Sequential m)) (non_linearity_entries nl i)
     = non_linearity_entries nl i.
Proof. destruct nl; simpl; auto. Qed.

(** The hidden blocks without their normalization: which entries are
    weight-bearing depends on the number of blocks and on whether there is
    a nonlinearity, and the weight-bearing entries are the hidden layers. *)
Lemma created_blocks_markers a n_hidden k : forall i0,
  let created := concat (map block_entries
                           (hidden_blocks (without_normalization a) n_hidden k i0)) in
  map is_weight_layer created
    = concat (replicate k (replicate (non_linearity_count (mlp_non_linearity a)) false
                           ++ [true]))
  /\ List.filter is_weight_layer created = map snd (hidden_blocks a n_hidden k i0)
  /\ List.filter (fun m => negb (is_Sequential m)) created = created.
Proof.
  induction k as [| k IH]; intros i0; [simpl; auto |].
  destruct (IH (i0 + non_linearity_count (mlp_non_linearity a) + 1)) as (Hmap & Hwl & Hseq).
  cbv zeta in Hmap, Hwl, Hseq |- *.
  destruct (non_linearity_entries_markers (mlp_non_linearity a) i0) as (Hm & Hw & Hs).
  change (concat (map block_entries
                    (hidden_blocks (without_normalization a) n_hidden (S k) i0)))
    with ((non_linearity_entries (mlp_non_linearity a) i0
           ++ [Module (i0 + non_linearity_count (mlp_non_linearity a))
                 (HighOrderFc (hidden_layer_args a n_hidden)) []])
          ++ concat (map block_entries
                       (hidden_blocks (without_normalization a) n_hidden k
                          (i0 + non_linearity_count (mlp_non_linearity a) + 1)))).
  rewrite !map_app, !List.filter_app, Hm, Hw, Hs, Hmap, Hwl, Hseq.
  split; [| split]; reflexivity.
Qed.

(** The modules of a [HighOrderMLP] that the engine passes on, and the
    weight-bearing ones among them. *)
Lemma mlp_non_sequential_modules a h net h' :
  HighOrderMLP_init a h = (inr net, h') ->
  normalization_marker a h ->
  let c := non_linearity_count (mlp_non_linearity a) in
  let k := Z.to_nat (mlp_hidden_layers a) in
  exists layers : list module,
    built h' = built h ++ layers
    /\ length layers = 2 + k
    /\ weight_layers net = layers
    /\ map is_weight_layer (non_sequential_modules (model net))
       = true
         :: match k with O => [] | S _ => replicate (length (option_list (mlp_normalization a))) false end
         ++ concat (replicate k (replicate c false ++ [true]))
         ++ replicate c false ++ replicate c false ++ [true].
Proof.
  intros Hrun Hmarker.
  assert (Hplain : plain_normalization a h).
  { intros nm Hnm. destruct (Hmarker nm Hnm) as (? & ? & _). auto. }
  pose proof (mlp_modules a h net h' Hrun Hplain) as Hmods.
  apply HighOrderMLP_init_layers in Hrun as (Hmodel & Hbuilt & _).
  cbv zeta in Hmods, Hmodel, Hbuilt |- *.
  set (c := non_linearity_count (mlp_non_linearity a)) in *.
  set (k := Z.to_nat (mlp_hidden_layers a)) in *.
  set (nh := py_or (mlp_n_hidden a) (mlp_n a)) in *.
  set (j := S (next_id h) + k * (c + 1)) in *.
  eexists. split; [exact Hbuilt |].
  split; [simpl; rewrite length_app, length_map, length_hidden_blocks; simpl; lia |].
  unfold weight_layers, non_sequential_modules. rewrite Hmods.
  destruct (created_blocks_markers a nh k (S (next_id h))) as (Hmap & Hwl & Hseq).
  destruct (non_linearity_entries_markers (mlp_non_linearity a) j) as (Hm1 & Hw1 & Hs1).
  destruct (non_linearity_entries_markers (mlp_non_linearity a) (j + c)) as (Hm2 & Hw2 & Hs2).
  assert (Honce : let once := match k with
                              | O => []
                              | S _ => option_list (mlp_normalization a)
                              end in
            List.filter (fun m => negb (is_Sequential m)) once = once
            /\ List.filter is_weight_layer once = []
            /\ map is_weight_layer once
               = match k with
                 | O => []
                 | S _ => replicate (length (option_list (mlp_normalization a))) false
                 end).
  { destruct k; simpl; [auto |].
    destruct (mlp_normalization a) as [nm |] eqn:Hnm; simpl; [| auto].
    destruct (Hmarker nm Hnm) as (_ & _ & -> & ->). simpl. auto. }
  destruct Honce as (Hso & Hwo & Hmo).
  assert (Hseqm : is_Sequential (model net) = true) by (rewrite Hmodel; reflexivity).
  cbn [List.filter]. rewrite Hseqm.
  cbn [negb List.filter is_Sequential is_weight_layer module_cls map].
  rewrite !List.filter_app, Hso, Hseq, Hs1, Hs2.
  cbn [negb List.filter is_Sequential is_weight_layer module_cls map].
  split.
  - rewrite ?List.filter_app, Hwo, Hwl, Hw1, Hw2. reflexivity.
  - rewrite ?map_app, Hmo, Hmap, Hm1, Hm2. reflexivity.
Qed.

Lemma zip_aligned {A : Type} (f : A -> bool) (l1 l2 : list A) :
  map f l1 = map f l2 ->
  Forall (fun p => f p.1 = f p.2) (zip l1 l2) /\ length (zip l1 l2) = length l1.
Proof.
  revert l2. induction l1 as [| x l1 IH]; intros [| y l2] Hmap; simpl in *;
    try discriminate; [split; [constructor | reflexivity] |].
  injection Hmap as Hxy Hmap. destruct (IH l2 Hmap) as [Hall Hlen].
  split; [constructor; [exact Hxy | exact Hall] | by rewrite Hlen].
Qed.

(** X11. Two networks built from arguments that agree on the number of hidden
    layers, on whether a nonlinearity is set and on whether a normalization
    is passed (the widths, orders and segments may differ): the engine
    pairs every module of the source with one of the same kind in the
    target, and the pairs of weight-bearing layers are the layers of the
    source with the layers of the target, in the order in which the
    constructor built them (input with input, each hidden layer with its
    counterpart, output with output). *)
Theorem engine_pairs_matching_networks a1 a2 h1 h2 net1 net2 h1' h2' :
  HighOrderMLP_init a1 h1 = (inr net1, h1') ->
  HighOrderMLP_init a2 h2 = (inr net2, h2') ->
  Z.to_nat (mlp_hidden_layers a1) = Z.to_nat (mlp_hidden_layers a2) ->
  non_linearity_count (mlp_non_linearity a1) = non_linearity_count (mlp_non_linearity a2) ->
  length (option_list (mlp_normalization a1)) = length (option_list (mlp_normalization a2)) ->
  normalization_marker a1 h1 ->
  normalization_marker a2 h2 ->
  exists layers1 layers2 : list module,
    built h1' = built h1 ++ layers1
    /\ built h2' = built h2 ++ layers2
    /\ length layers1 = 2 + Z.to_nat (mlp_hidden_layers a1)
    /\ length layers2 = length layers1
    /\ List.filter (fun p => is_weight_layer p.1) (layer_pairs net1 net2)
       = zip layers1 layers2
    /\ Forall (fun p => is_weight_layer p.1 = is_weight_layer p.2) (layer_pairs net1 net2)
    /\ length (layer_pairs net1 net2) = length (non_sequential_modules (model net1)).
Proof.
  intros Hrun1 Hrun2 Hk Hc Hnm Hm1 Hm2.
  destruct (mlp_non_sequential_modules a1 h1 net1 h1' Hrun1 Hm1)
    as (layers1 & Hb1 & Hlen1 & Hwl1 & Hpat1).
  destruct (mlp_non_sequential_modules a2 h2 net2 h2' Hrun2 Hm2)
    as (layers2 & Hb2 & Hlen2 & Hwl2 & Hpat2).
  assert (Haligned : map is_weight_layer (non_sequential_modules (model net1))
                     = map is_weight_layer (non_sequential_modules (model net2))).
  { rewrite Hpat1, Hpat2, Hk, Hc, Hnm. reflexivity. }
  exists layers1, layers2. do 3 (split; [assumption |]).
  split; [lia |]. split.
  - rewrite <- Hwl1, <- Hwl2. apply filter_zip_aligned. exact Haligned.
  - apply zip_aligned. exact Haligned.
Qed.

(** X12. [modules()] yields every object of a [HighOrderMLP] once. A
    normalization (an object without children that existed before the
    call) is registered once per hidden layer and yielded once, so with
    [k >= 1] hidden layers [modules()] has [k - 1] entries fewer than the
    container and its children together. *)
Theorem modules_yield_each_object_once a h net h' :
  HighOrderMLP_init a h = (inr net, h') ->
  plain_normalization a h ->
  NoDup (map module_id (modules (model net)))
  /\ (forall x, x ∈ module_children (model net) ->
        exists y, y ∈ modules (model net) /\ module_id y = module_id x)
  /\ length (modules (model net)) + Z.to_nat (mlp_hidden_layers a)
        * length (option_list (mlp_normalization a))
     = 1 + length (module_children (model net))
       + match Z.to_nat (mlp_hidden_layers a) with
         | O => 0
         | S _ => length (option_list (mlp_normalization a))
         end.
Proof.
  intros Hrun Hplain. pose proof (mlp_modules a h net h' Hrun Hplain) as Hmods.
  pose proof Hrun as Hrun'.
  apply HighOrderMLP_init_layers in Hrun as (Hmodel & _ & _).
  cbv zeta in Hmods, Hmodel.
  assert (Hleaves : Forall (fun x => module_children x = []) (module_children (model net))).
  { rewrite Hmodel. simpl. constructor; [reflexivity |]. apply Forall_app. split.
    - apply hidden_blocks_leaves. intros nm Hnm. by apply Hplain.
    - destruct (mlp_non_linearity a); simpl; repeat constructor. }
  assert (Hfv : modules (model net)
                = model net :: first_visits (module_children (model net))
                                 {[module_id (model net)]}).
  { rewrite Hmodel in Hleaves |- *. simpl in Hleaves |- *.
    apply modules_of_leaves. exact Hleaves. }
  split; [| split].
  - rewrite Hfv. simpl.
    destruct (first_visits_NoDup (module_children (model net)) {[module_id (model net)]})
      as [Hnd Hfresh].
    constructor; [| exact Hnd].
    intros Hin. apply list_elem_of_In, in_map_iff in Hin as (x & Hid & Hx).
    apply list_elem_of_In, Hfresh in Hx. apply Hx, elem_of_singleton. exact Hid.
  - intros x Hx. rewrite Hfv.
    destruct (decide (module_id x = module_id (model net))) as [Heq | Hne].
    + exists (model net). split; [by left | auto].
    + destruct (first_visits_complete (module_children (model net))
                  {[module_id (model net)]} x Hx) as (y & Hy & Hid).
      * intros Hin. apply elem_of_singleton in Hin. contradiction.
      * exists y. split; [by right | exact Hid].
  - assert (Hnl : forall i, length (non_linearity_entries (mlp_non_linearity a) i)
                            = non_linearity_count (mlp_non_linearity a))
      by (intros i; destruct (mlp_non_linearity a); reflexivity).
    assert (Hchildren : length (module_children (model net))
              = 2 + Z.to_nat (mlp_hidden_layers a)
                    * (length (option_list (mlp_normalization a))
                       + non_linearity_count (mlp_non_linearity a) + 1)
                + 2 * non_linearity_count (mlp_non_linearity a)).
    { rewrite Hmodel. simpl. rewrite !length_app, length_block_entries, !Hnl. simpl. lia. }
    rewrite Hchildren, Hmods. simpl.
    rewrite !length_app, length_block_entries, !Hnl. simpl.
    destruct (Z.to_nat (mlp_hidden_layers a)); simpl; nia.
Qed.

End MLPEngine.


(** The theorem at a source of order 2 and a target of order 4, each with
    two hidden layers, the nonlinearity ["ReLU"] and the normalization
    [layer_norm]. *)
Lemma engine_pairs_matching_networks_witness :
  exists net1 h1 net2 h2,
    HighOrderMLP_init (H := accept_all)
      (mlp_example_of_order 2 2 (Some "ReLU") (Some layer_norm)) heap0 = (inr net1, h1)
    /\ HighOrderMLP_init (H := accept_all)
         (mlp_example_of_order 4 2 (Some "ReLU") (Some layer_norm)) heap20 = (inr net2, h2)
    /\ map layer_order (built h1) = replicate 4 (Some 2%Z)
    /\ map layer_order (built h2) = replicate 4 (Some 4%Z)
    /\ List.filter (fun p => is_weight_layer p.1) (layer_pairs net1 net2)
       = zip (built h1) (built h2).
Proof.
  eexists _, _, _, _. split; [vm_compute; reflexivity |].
  split; [vm_compute; reflexivity |].
  split; [reflexivity |]. split; [reflexivity |].
  edestruct (engine_pairs_matching_networks (H := accept_all)
               (mlp_example_of_order 2 2 (Some "ReLU") (Some layer_norm))
               (mlp_example_of_order 4 2 (Some "ReLU") (Some layer_norm)) heap0 heap20)
    as (layers1 & layers2 & Hb1 & Hb2 & _ & _ & Hpairs & _);
    [vm_compute; reflexivity | vm_compute; reflexivity | reflexivity | reflexivity
    | reflexivity | | |].
  - intros nm [= <-]. repeat split; try reflexivity. simpl. lia.
  - intros nm [= <-]. repeat split; try reflexivity. simpl. lia.
  - simpl in Hb1, Hb2. subst layers1 layers2. exact Hpairs.
Defined.

(** The theorem at a network with three hidden layers and a
    normalization. *)
Lemma modules_yield_each_object_once_witness :
  exists net h',
    HighOrderMLP_init (H := accept_all) (mlp_example 3 None (Some layer_norm)) heap0
      = (inr net, h')
    /\ NoDup (map module_id (modules (model net)))
    /\ length (module_children (model net)) = 8
    /\ length (modules (model net)) = 7.
Proof.
  eexists _, _. split; [vm_compute; reflexivity |].
  edestruct (modules_yield_each_object_once (H := accept_all)
               (mlp_example 3 None (Some layer_norm)) heap0)
    as (Hnd & _ & _); [vm_compute; reflexivity | |].
  - intros nm [= <-]. split; [reflexivity | simpl; lia].
  - split; [exact Hnd |]. split; [reflexivity | vm_compute; reflexivity].
Defined.

(* ================================================================== *)
(** * Part V: further properties of Expansion2d                         *)
(* ================================================================== *)

Section ExpansionLayout.
Context {A : Type}.

(** [Expansion2d.__call__] on a basis output of rank 5. *)
Lemma Expansion2d_call_rank_5 (basis : tensor A -> tensor A) (x : tensor A)
    (s0 s1 s2 s3 s4 : nat) :
  shape (basis x) = [s0; s1; s2; s3; s4] ->
  exists out : tensor A,
    Expansion2d_call basis x = inr out
    /\ shape out = [s1; s2 * s0; s3; s4]
    /\ forall i0 i1 i2 i3 i4, i0 < s0 -> i1 < s1 -> i2 < s2 -> i3 < s3 -> i4 < s4 ->
         get out [i1; i2 * s0 + i0; i3; i4] = get (basis x) [i0; i1; i2; i3; i4].
Proof.
  intros Hres. unfold Expansion2d_call.
  destruct (permute_inr [1; 3; 4; 2; 0] (basis x)) as (r1 & Hp1 & Hs1).
  { rewrite Hres. reflexivity. }
  { rewrite Hres. simpl. repeat constructor; lia. }
  { compute_done. }
  rewrite Hres in Hs1. simpl in Hs1. rewrite Hp1, Hs1.
  assert (Hr2 : reshape [s1; s3; s4; s2 * s0] r1
                = inr {| shape := [s1; s3; s4; s2 * s0]; mem := mem r1 |}).
  { unfold reshape. rewrite bool_decide_eq_true_2; [reflexivity |].
    rewrite Hs1. simpl. ring. }
  rewrite Hr2.
  destruct (permute_inr [0; 3; 1; 2] {| shape := [s1; s3; s4; s2 * s0]; mem := mem r1 |})
    as (out & Hp2 & Hs2).
  { reflexivity. }
  { simpl. repeat constructor; lia. }
  { compute_done. }
  simpl in Hs2. exists out. split; [exact Hp2 |]. split; [exact Hs2 |].
  intros i0 i1 i2 i3 i4 H0 H1 H2 H3 H4.
  assert (Hch : i2 * s0 + i0 < s2 * s0) by nia.
  rewrite (get_permute _ _ _ _ Hp2)
    by (rewrite Hs2; unfold in_bounds; repeat constructor; assumption).
  change (source_index [0; 3; 1; 2] [i1; i2 * s0 + i0; i3; i4])
    with [i1; i3; i4; i2 * s0 + i0].
  unfold get at 1. cbn [shape mem].
  replace (offset [s1; s3; s4; s2 * s0] [i1; i3; i4; i2 * s0 + i0])
    with (offset (shape r1) [i1; i3; i4; i2; i0]) by (rewrite Hs1; simpl; ring).
  change (mem r1 (offset (shape r1) [i1; i3; i4; i2; i0])) with (get r1 [i1; i3; i4; i2; i0]).
  rewrite (get_permute _ _ _ _ Hp1)
    by (rewrite Hs1; unfold in_bounds; repeat constructor; assumption).
  reflexivity.
Qed.

(** X13. Whatever the callable [basis] is, when it returns a tensor of shape
    [(s0, s1, s2, s3, s4)], [Expansion2d.__call__] returns a tensor of shape
    [(s1, s2 * s0, s3, s4)] that holds every element of it once: axis 0 is
    merged into axis 2, running fastest. *)
Theorem expansion_merges_axis_0_into_axis_2 (basis : tensor A -> tensor A) (x : tensor A)
    (s0 s1 s2 s3 s4 : nat) :
  shape (basis x) = [s0; s1; s2; s3; s4] ->
  exists out : tensor A,
    Expansion2d_call basis x = inr out
    /\ shape out = [s1; s2 * s0; s3; s4]
    /\ numel (shape out) = numel (shape (basis x))
    /\ forall i0 i1 i2 i3 i4, i0 < s0 -> i1 < s1 -> i2 < s2 -> i3 < s3 -> i4 < s4 ->
         get out [i1; i2 * s0 + i0; i3; i4] = get (basis x) [i0; i1; i2; i3; i4].
Proof.
  intros Hres.
  destruct (Expansion2d_call_rank_5 basis x s0 s1 s2 s3 s4 Hres) as (out & Hcall & Hs & Hget).
  exists out. split; [exact Hcall |]. split; [exact Hs |]. split; [| exact Hget].
  rewrite Hs, Hres. simpl. ring.
Qed.

(** X14. When the callable [basis] returns a tensor whose rank is not 5, the
    first [permute] raises and [Expansion2d.__call__] raises with it. *)
Theorem expansion_rejects_other_ranks (basis : tensor A -> tensor A) (x : tensor A) :
  length (shape (basis x)) <> 5 ->
  Expansion2d_call basis x = inl (ExternalError "RuntimeError").
Proof.
  intros Hrank. unfold Expansion2d_call, permute.
  rewrite bool_decide_eq_false_2; [reflexivity |].
  intros (Hlen & _). simpl in Hlen. congruence.
Qed.

(** X15. For a basis of order [n] and an input of shape [(B, C, H, W)], every
    channel [j] of the output is accounted for: it holds coefficient
    [j mod n] of input channel [j / n]. *)
Theorem expansion_channel_is_coefficient_of_channel
    (basis : tensor A -> tensor A) (n : nat) (coef : nat -> A -> A)
    (x : tensor A) (B C H W : nat) :
  basis_of_order basis n coef ->
  shape x = [B; C; H; W] ->
  exists out : tensor A,
    Expansion2d_call basis x = inr out
    /\ forall b j h w, b < B -> j < C * n -> h < H -> w < W ->
         get out [b; j; h; w] = coef (j mod n) (get x [b; j / n; h; w]).
Proof.
  intros Hbasis Hx. destruct (Hbasis x) as [Hres Hcoef]. rewrite Hx in Hres, Hcoef.
  destruct (Expansion2d_call_rank_5 basis x n B C H W Hres) as (out & Hcall & _ & Hget).
  exists out. split; [exact Hcall |].
  intros b j h w Hb Hj Hh Hw.
  assert (Hn : n <> 0) by (intros ->; lia).
  pose proof (Nat.div_mod_eq j n) as Hdiv.
  pose proof (Nat.mod_upper_bound j n Hn) as Hmod.
  assert (Hc : j / n < C) by (apply Nat.Div0.div_lt_upper_bound; lia).
  replace j with (j / n * n + j mod n) at 1 by lia.
  rewrite Hget by assumption.
  apply Hcoef; [exact Hmod |]. unfold in_bounds. repeat constructor; assumption.
Qed.

End ExpansionLayout.

(** The theorem at the basis [stack_basis 2 expansion_coef] and the input
    [expansion_input]. *)
Lemma expansion_merges_axis_0_into_axis_2_witness :
  exists out : tensor Z,
    Expansion2d_call (stack_basis 2 expansion_coef) expansion_input = inr out
    /\ shape out = [1; 2 * 2; 1; 2]
    /\ numel (shape out) = numel (shape (stack_basis 2 expansion_coef expansion_input))
    /\ forall i0 i1 i2 i3 i4, i0 < 2 -> i1 < 1 -> i2 < 2 -> i3 < 1 -> i4 < 2 ->
         get out [i1; i2 * 2 + i0; i3; i4]
         = get (stack_basis 2 expansion_coef expansion_input) [i0; i1; i2; i3; i4].
Proof.
  apply (expansion_merges_axis_0_into_axis_2 (stack_basis 2 expansion_coef) expansion_input
           2 1 2 1 2).
  reflexivity.
Defined.

(** The theorem at a basis that returns its input, of rank 4. *)
Lemma expansion_rejects_other_ranks_witness :
  Expansion2d_call (fun x => x) expansion_input = inl (ExternalError "RuntimeError").
Proof.
  apply (expansion_rejects_other_ranks (fun x => x) expansion_input). simpl. lia.
Defined.

(** The theorem at the basis [stack_basis 2 expansion_coef] and the input
    [expansion_input]. *)
Lemma expansion_channel_is_coefficient_of_channel_witness :
  exists out : tensor Z,
    Expansion2d_call (stack_basis 2 expansion_coef) expansion_input = inr out
    /\ forall b j h w, b < 1 -> j < 2 * 2 -> h < 1 -> w < 2 ->
         get out [b; j; h; w]
         = expansion_coef (j mod 2) (get expansion_input [b; j / 2; h; w]).
Proof.
  apply (expansion_channel_is_coefficient_of_channel
           (stack_basis 2 expansion_coef) 2 expansion_coef expansion_input 1 2 1 2).
  - apply stack_basis_of_order.
  - reflexivity.
Defined.

(* ================================================================== *)
(** * Part VI: the functional convolution layers                        *)
(* ================================================================== *)

Section FunctionalConvolutionProperties.
Context {A K : Type} {parts : @ConvolutionParts A K}.

(** A layer whose expansion basis has order [n], built for [in_channels]
    input channels and applied to an input of shape
    [(B, in_channels, H, W)]. *)
Lemma functional_convolution_forward (layer : @FunctionalConvolution2d A K)
    (n in_channels : nat) (coef : nat -> A -> A) (x : tensor A) (B H W : nat) :
  conv2d_in_channels (conv layer) = n * in_channels ->
  basis_of_order (basis (poly layer)) n coef ->
  shape x = [B; in_channels; H; W] ->
  exists y : tensor A,
    Expansion2d_call (basis (poly layer)) x = inr y
    /\ shape y = [B; conv2d_in_channels (conv layer); H; W]
    /\ FunctionalConvolution2d_forward layer x = conv2d_forward (conv layer) y
    /\ forall b c h w k, b < B -> c < in_channels -> h < H -> w < W -> k < n ->
         get y [b; c * n + k; h; w] = coef k (get x [b; c; h; w]).
Proof.
  intros Hin Hbasis Hx. destruct (Hbasis x) as [Hres Hcoef]. rewrite Hx in Hres, Hcoef.
  destruct (Expansion2d_call_rank_5 (basis (poly layer)) x n B in_channels H W Hres)
    as (y & Hcall & Hs & Hget).
  exists y. split; [exact Hcall |].
  split; [rewrite Hs, Hin, Nat.mul_comm; reflexivity |].
  split; [unfold FunctionalConvolution2d_forward; rewrite Hcall; reflexivity |].
  intros b c h w k Hb Hc Hh Hw Hk. rewrite Hget by assumption.
  apply Hcoef; [exact Hk |]. unfold in_bounds. repeat constructor; assumption.
Qed.

(** X16. A [PolynomialConvolution2d] built with [(n, in_channels)] expands an
    input of shape [(B, in_channels, H, W)] to exactly the number of
    channels its [Conv2d] was built with, and [forward] is the convolution
    of that expanded tensor. (Stated for a [LagrangeExpand(n)] that is a
    basis of order [n].) *)
Theorem polynomial_convolution_channels_agree {P : Type} (n in_channels : nat)
    (args : list P) (kwargs : K) (layer : @FunctionalConvolution2d A K)
    (coef : nat -> A -> A) (x : tensor A) (B H W : nat) :
  PolynomialConvolution2d_init n in_channels args kwargs = inr layer ->
  basis_of_order (LagrangeExpand n) n coef ->
  shape x = [B; in_channels; H; W] ->
  exists y : tensor A,
    Expansion2d_call (basis (poly layer)) x = inr y
    /\ shape y = [B; conv2d_in_channels (conv layer); H; W]
    /\ FunctionalConvolution2d_forward layer x = conv2d_forward (conv layer) y
    /\ forall b c h w k, b < B -> c < in_channels -> h < H -> w < W -> k < n ->
         get y [b; c * n + k; h; w] = coef k (get x [b; c; h; w]).
Proof.
  unfold PolynomialConvolution2d_init, Expansion2d_init, Conv2d_init.
  destruct (conv2d_accepts (n * in_channels) kwargs); [| discriminate].
  intros [= <-] Hbasis Hx.
  apply (functional_convolution_forward _ n in_channels coef x B H W);
    [reflexivity | exact Hbasis | exact Hx].
Qed.

(** X17. The same for [FourierConvolution2d]. (Stated for a [FourierExpand(n)]
    that is a basis of order [n].) *)
Theorem fourier_convolution_channels_agree {P : Type} (n in_channels : nat)
    (args : list P) (kwargs : K) (layer : @FunctionalConvolution2d A K)
    (coef : nat -> A -> A) (x : tensor A) (B H W : nat) :
  FourierConvolution2d_init n in_channels args kwargs = inr layer ->
  basis_of_order (FourierExpand n) n coef ->
  shape x = [B; in_channels; H; W] ->
  exists y : tensor A,
    Expansion2d_call (basis (poly layer)) x = inr y
    /\ shape y = [B; conv2d_in_channels (conv layer); H; W]
    /\ FunctionalConvolution2d_forward layer x = conv2d_forward (conv layer) y
    /\ forall b c h w k, b < B -> c < in_channels -> h < H -> w < W -> k < n ->
         get y [b; c * n + k; h; w] = coef k (get x [b; c; h; w]).
Proof.
  unfold FourierConvolution2d_init, Expansion2d_init, Conv2d_init.
  destruct (conv2d_accepts (n * in_channels) kwargs); [| discriminate].
  intros [= <-] Hbasis Hx.
  apply (functional_convolution_forward _ n in_channels coef x B H W);
    [reflexivity | exact Hbasis | exact Hx].
Qed.

End FunctionalConvolutionProperties.


(** The theorem at a layer built with [n = 2] and [in_channels = 2],
    applied to [expansion_input]. *)
Lemma polynomial_convolution_channels_agree_witness :
  exists y,
    PolynomialConvolution2d_init (parts := example_parts) (P := Z) 2 2 [] tt = inr example_layer
    /\ Expansion2d_call (basis (poly example_layer)) expansion_input = inr y
    /\ shape y = [1; conv2d_in_channels (conv example_layer); 1; 2]
    /\ FunctionalConvolution2d_forward (parts := example_parts) example_layer
         expansion_input = inr y.
Proof.
  edestruct (polynomial_convolution_channels_agree (parts := example_parts) (P := Z)
               2 2 [] tt example_layer expansion_coef expansion_input 1 1 2)
    as (y & Hcall & Hshape & Hforward & _);
    [reflexivity | apply stack_basis_of_order | reflexivity |].
  exists y. split; [reflexivity |]. split; [exact Hcall |].
  split; [exact Hshape | exact Hforward].
Defined.

Lemma fourier_convolution_channels_agree_witness :
  exists y,
    FourierConvolution2d_init (parts := example_parts) (P := Z) 2 2 [] tt = inr example_layer
    /\ Expansion2d_call (basis (poly example_layer)) expansion_input = inr y
    /\ shape y = [1; conv2d_in_channels (conv example_layer); 1; 2]
    /\ FunctionalConvolution2d_forward (parts := example_parts) example_layer
         expansion_input = inr y.
Proof.
  edestruct (fourier_convolution_channels_agree (parts := example_parts) (P := Z)
               2 2 [] tt example_layer expansion_coef expansion_input 1 1 2)
    as (y & Hcall & Hshape & Hforward & _);
    [reflexivity | apply stack_basis_of_order | reflexivity |].
  exists y. split; [reflexivity |]. split; [exact Hcall |].
  split; [exact Hshape | exact Hforward].
Defined.

(* ================================================================== *)
(** * Part VII: forward                                                 *)
(* ================================================================== *)

Section Forward.
Context {T : Type} `{ModuleCall T}.


Lemma run_modules_app l1 l2 x :
  run_modules (l1 ++ l2) x =
  match run_modules l1 x with
  | inl e => inl e
  | inr y => run_modules l2 y
  end.
Proof.
  revert x. induction l1 as [| m l1 IH]; intros x; simpl; [reflexivity |].
  destruct (call_module m x); [reflexivity | apply IH].
Qed.

Lemma run_modules_stages nm layers x :
  run_modules (concat (map (fun layer => option_list nm ++ [layer]) layers)) x
  = run_stages nm layers x.
Proof.
  revert x. induction layers as [| layer rest IH]; intros x; simpl; [reflexivity |].
  rewrite <- app_assoc, run_modules_app.
  destruct (run_modules (option_list nm) x) as [e | y]; [reflexivity |].
  simpl. destruct (call_module layer y); [reflexivity | apply IH].
Qed.

End Forward.

Section ForwardProperties.
Context {T : Type} `{ModuleCall T} `{LayerFactory}.

(** X18. [forward] of a convolutional network runs, for each layer in the order
    in which the layers were built, the normalization (if one was passed)
    and then the layer. So the normalization is the first thing applied to
    the input: when it raises on the input, [forward] raises the same
    exception and no layer is called. *)
Theorem conv_forward_by_stages a h net h' :
  HighOrderFullyConvolutionalNetwork_init a h = (inr net, h') ->
  exists layers : list module,
    built h' = built h ++ layers
    /\ (forall x, HighOrderFullyConvolutionalNetwork_forward net x
                  = run_stages (cn_normalization a) layers x)
    /\ (forall nm x e, cn_normalization a = Some nm -> call_module nm x = inl e ->
          HighOrderFullyConvolutionalNetwork_forward net x = inl e).
Proof.
  intros Hrun. pose proof (conv_init_inr a h net h' Hrun) as (Hch & l & h1 & Hloop & Hl & Hb).
  apply conv_loop_seq_inr in Hloop as (layers & -> & Hlen & Hbuilt & _).
  exists layers. split; [congruence |].
  assert (Hfw : forall x, HighOrderFullyConvolutionalNetwork_forward net x
                          = run_stages (cn_normalization a) layers x).
  { intros x. unfold HighOrderFullyConvolutionalNetwork_forward. rewrite Hl. simpl.
    apply run_modules_stages. }
  split; [exact Hfw |].
  intros nm x e Hnm Hcall. rewrite Hfw.
  destruct layers as [| layer rest]; [simpl in Hlen; lia |].
  simpl. rewrite Hnm. simpl. rewrite Hcall. reflexivity.
Qed.

(** X19. [forward] of a [HighOrderMLP] built with a nonlinearity applies the
    nonlinearity twice in a row before the output layer. When applying an
    instance of the nonlinearity to a value that an instance has returned
    gives that value back (as for a rectifier), [forward] computes what it
    would without the second of the two instances. *)
Theorem doubled_non_linearity_applied_twice a h net h' cls :
  HighOrderMLP_init a h = (inr net, h') ->
  mlp_non_linearity a = Some cls ->
  exists (before : list module) (nl1 nl2 output : module),
    module_children (model net) = before ++ [nl1; nl2; output]
    /\ is_nonlinearity cls nl1 /\ is_nonlinearity cls nl2
    /\ (forall x, HighOrderMLP_forward net x
          = match run_modules before x with
            | inl e => inl e
            | inr y =>
                match call_module nl1 y with
                | inl e => inl e
                | inr z =>
                    match call_module nl2 z with
                    | inl e => inl e
                    | inr w => call_module output w
                    end
                end
            end)
    /\ ((forall m1 m2 x y, is_nonlinearity cls m1 -> is_nonlinearity cls m2 ->
           call_module m1 x = inr y -> call_module m2 y = inr y) ->
        forall x, HighOrderMLP_forward net x = run_modules (before ++ [nl1; output]) x).
Proof.
  intros Hrun Hnl. apply HighOrderMLP_init_layers in Hrun as (Hmodel & _ & _).
  cbv zeta in Hmodel. rewrite Hnl in Hmodel. simpl in Hmodel.
  assert (Hsplit : exists before nl1 nl2 output,
            module_children (model net) = before ++ [nl1; nl2; output]
            /\ is_nonlinearity cls nl1 /\ is_nonlinearity cls nl2).
  { eexists (_ :: concat _), _, _, _. split; [rewrite Hmodel; reflexivity |].
    split; apply is_nonlinearity_created. }
  destruct Hsplit as (before & nl1 & nl2 & output & Hch & Hnl1 & Hnl2).
  exists before, nl1, nl2, output. do 3 (split; [assumption |]).
  unfold HighOrderMLP_forward. rewrite Hch.
  assert (Hfw : forall x,
            run_modules (before ++ [nl1; nl2; output]) x
            = match run_modules before x with
              | inl e => inl e
              | inr y =>
                  match call_module nl1 y with
                  | inl e => inl e
                  | inr z =>
                      match call_module nl2 z with
                      | inl e => inl e
                      | inr w => call_module output w
                      end
                  end
              end).
  { intros x. rewrite run_modules_app.
    destruct (run_modules before x) as [e | y]; [reflexivity |]. simpl.
    destruct (call_module nl1 y) as [e | z]; [reflexivity |].
    destruct (call_module nl2 z) as [e | w]; [reflexivity |].
    destruct (call_module output w); reflexivity. }
  split; [exact Hfw |].
  intros Hidem x. rewrite Hfw, run_modules_app.
  destruct (run_modules before x) as [e | y]; [reflexivity |]. simpl.
  destruct (call_module nl1 y) as [e | z] eqn:Hcall; [reflexivity |].
  rewrite (Hidem nl1 nl2 y z Hnl1 Hnl2 Hcall).
  destruct (call_module output z); reflexivity.
Qed.

End ForwardProperties.

(** The theorem at a network of two layers with the normalization
    [layer_norm]. *)
Lemma conv_forward_by_stages_witness :
  exists net h',
    HighOrderFullyConvolutionalNetwork_init (H := accept_all)
      (conv_example [3; 5]%Z [1; 8; 4]%Z (Some layer_norm)) heap0 = (inr net, h')
    /\ HighOrderFullyConvolutionalNetwork_forward (H := example_call) net 2%Z = inr 8%Z
    /\ HighOrderFullyConvolutionalNetwork_forward (H := example_call) net (-1)%Z
       = inl (ExternalError "LayerNorm").
Proof.
  eexists _, _. split; [vm_compute; reflexivity |].
  edestruct (conv_forward_by_stages (H := example_call) (H0 := accept_all)
               (conv_example [3; 5]%Z [1; 8; 4]%Z (Some layer_norm)) heap0)
    as (layers & Hbuilt & Hforward & Hfirst); [vm_compute; reflexivity |].
  split.
  - rewrite Hforward. simpl in Hbuilt. subst layers. reflexivity.
  - apply (Hfirst layer_norm); reflexivity.
Defined.

(** The theorem at a network without hidden layers, with the rectifier as
    nonlinearity. *)
Lemma doubled_non_linearity_applied_twice_witness :
  exists net h',
    HighOrderMLP_init (H := accept_all) (mlp_example 0 (Some "ReLU") None) heap0
      = (inr net, h')
    /\ exists (before : list module) (nl1 nl2 output : module),
         module_children (model net) = before ++ [nl1; nl2; output]
         /\ forall x, HighOrderMLP_forward (H := example_call) net x
                      = run_modules (H := example_call) (before ++ [nl1; output]) x.
Proof.
  eexists _, _. split; [vm_compute; reflexivity |].
  edestruct (doubled_non_linearity_applied_twice (H := example_call) (H0 := accept_all)
               (mlp_example 0 (Some "ReLU") None) heap0)
    as (before & nl1 & nl2 & output & Hch & _ & _ & _ & Hidem);
    [vm_compute; reflexivity | reflexivity |].
  exists before, nl1, nl2, output. split; [exact Hch |].
  apply Hidem. intros m1 m2 x y [Hc1 _] [Hc2 _]. simpl. rewrite Hc1, Hc2.
  intros [= <-]. f_equal. lia.
Defined.

(* ================================================================== *)
(** * Part VIII: VanillaVAE                                             *)
(* ================================================================== *)

Section VAEProperties.
Context {T M St : Type} {torch : @TorchParts T M St}.

Lemma veff_bind_inr {A B : Type} (m : VEff St A) (k : A -> VEff St B) s b s' :
  veff_bind m k s = (inr b, s') ->
  exists a s1, m s = (inr a, s1) /\ k a s1 = (inr b, s').
Proof.
  unfold veff_bind. destruct (m s) as [[e | a] s1]; [discriminate |].
  intros Hk. exists a, s1. split; [reflexivity | exact Hk].
Qed.

Lemma veff_bind_returns {A B : Type} (m : VEff St A) (k : A -> VEff St B) s a s1 :
  m s = (inr a, s1) -> veff_bind m k s = k a s1.
Proof. unfold veff_bind. intros ->. reflexivity. Qed.

Lemma lift_inr {A : Type} (m : Eff St A) s a s' :
  lift m s = (inr a, s') <-> m s = (inr a, s').
Proof.
  unfold lift. destruct (m s) as [[e | a0] s1]; split; intros [= <- <-];
    reflexivity.
Qed.

Lemma py_last_inr {A : Type} (l : list A) (s : St) a s' :
  py_last l s = (inr a, s') <-> last l = Some a /\ s' = s.
Proof.
  unfold py_last. destruct (last l) as [x |]; unfold veff_ret, veff_raise; split.
  - intros [= <- <-]. split; reflexivity.
  - intros [[= <-] ->]. reflexivity.
  - discriminate.
  - intros [[=] _].
Qed.

Lemma load_global_nn : load_global (St := St) "nn" = veff_ret tt.
Proof. reflexivity. Qed.

Lemma load_global_torch : load_global (St := St) "torch" = veff_ret tt.
Proof. reflexivity. Qed.

Lemma load_global_F : load_global (St := St) "F" = veff_raise (NameError "F").
Proof. reflexivity. Qed.

Lemma VanillaVAE_init_inr in_channels latent_dim hidden_dims encoder decoder kwargs
    s self s' :
  VanillaVAE_init in_channels latent_dim hidden_dims encoder decoder kwargs s
    = (inr self, s')
  <-> exists h fc_mu s1 fc_var s2 decoder_input,
        last hidden_dims = Some h
        /\ Linear (h * 4) latent_dim s = (inr fc_mu, s1)
        /\ Linear (h * 4) latent_dim s1 = (inr fc_var, s2)
        /\ Linear latent_dim (h * 4) s2 = (inr decoder_input, s')
        /\ self = constructed latent_dim encoder decoder fc_mu fc_var decoder_input.
Proof.
  unfold VanillaVAE_init. cbv zeta. rewrite load_global_nn. split.
  - intros Hrun.
    apply veff_bind_inr in Hrun as ([] & s0 & [= <-] & Hrun).
    apply veff_bind_inr in Hrun as (h & s0 & [Hlast ->]%py_last_inr & Hrun).
    apply veff_bind_inr in Hrun as (fc_mu & s1 & Hmu%lift_inr & Hrun).
    apply veff_bind_inr in Hrun as ([] & s0 & [= <-] & Hrun).
    apply veff_bind_inr in Hrun as (h' & s0 & [Hlast' ->]%py_last_inr & Hrun).
    rewrite Hlast in Hlast'. injection Hlast' as <-.
    apply veff_bind_inr in Hrun as (fc_var & s2 & Hvar%lift_inr & Hrun).
    apply veff_bind_inr in Hrun as ([] & s0 & [= <-] & Hrun).
    apply veff_bind_inr in Hrun as (h' & s0 & [Hlast' ->]%py_last_inr & Hrun).
    rewrite Hlast in Hlast'. injection Hlast' as <-.
    apply veff_bind_inr in Hrun as (decoder_input & s3 & Hdec%lift_inr & Hrun).
    injection Hrun as <- <-.
    exists h, fc_mu, s1, fc_var, s2, decoder_input. repeat split; assumption.
  - intros (h & fc_mu & s1 & fc_var & s2 & decoder_input
            & Hlast & Hmu & Hvar & Hdec & ->).
    assert (Hh : forall s0 : St, py_last hidden_dims s0 = (inr h, s0)).
    { intros s0. apply py_last_inr. split; [exact Hlast | reflexivity]. }
    apply lift_inr in Hmu, Hvar, Hdec.
    rewrite (veff_bind_returns _ _ s tt s) by reflexivity.
    rewrite (veff_bind_returns _ _ s h s) by apply Hh.
    rewrite (veff_bind_returns _ _ s fc_mu s1) by exact Hmu.
    rewrite (veff_bind_returns _ _ s1 tt s1) by reflexivity.
    rewrite (veff_bind_returns _ _ s1 h s1) by apply Hh.
    rewrite (veff_bind_returns _ _ s1 fc_var s2) by exact Hvar.
    rewrite (veff_bind_returns _ _ s2 tt s2) by reflexivity.
    rewrite (veff_bind_returns _ _ s2 h s2) by apply Hh.
    rewrite (veff_bind_returns _ _ s2 decoder_input s') by exact Hdec.
    reflexivity.
Qed.

Lemma constructed_final_layer latent_dim (encoder decoder fc_mu fc_var decoder_input : M) :
  constructed latent_dim encoder decoder fc_mu fc_var decoder_input !! "final_layer"
  = None.
Proof.
  unfold constructed, object. simpl.
  repeat (rewrite lookup_insert_ne by discriminate). apply lookup_empty.
Qed.

Lemma constructed_decoder_input latent_dim (encoder decoder fc_mu fc_var decoder_input : M) :
  constructed latent_dim encoder decoder fc_mu fc_var decoder_input !! "decoder_input"
  = Some (AttrModule decoder_input).
Proof.
  unfold constructed, object. simpl.
  rewrite lookup_insert_ne by discriminate. apply lookup_insert_eq.
Qed.

Lemma constructed_decoder latent_dim (encoder decoder fc_mu fc_var decoder_input : M) :
  constructed latent_dim encoder decoder fc_mu fc_var decoder_input !! "decoder"
  = Some (AttrModule decoder).
Proof. unfold constructed, object. simpl. apply lookup_insert_eq. Qed.

(** Without an attribute [final_layer], [decode] does not return. *)
Lemma decode_needs_final_layer (self : @object M) z s r s' :
  self !! "final_layer" = None -> decode self z s <> (inr r, s').
Proof.
  intros Hnone Hrun. unfold decode in Hrun.
  apply veff_bind_inr in Hrun as (f & s1 & _ & Hrun).
  apply veff_bind_inr in Hrun as (r1 & s2 & _ & Hrun).
  apply veff_bind_inr in Hrun as (r2 & s3 & _ & Hrun).
  apply veff_bind_inr in Hrun as (g & s4 & _ & Hrun).
  apply veff_bind_inr in Hrun as (r3 & s5 & _ & Hrun).
  apply veff_bind_inr in Hrun as (fl & s6 & Hfl & _).
  unfold getattr in Hfl. rewrite Hnone in Hfl. discriminate.
Qed.

Lemma raises_or_returns {A : Type} (m : VEff St A) s :
  (forall a s', m s <> (inr a, s')) -> exists e s', m s = (inl e, s').
Proof.
  intros Hno. destruct (m s) as [[e | a] s'] eqn:Hm; [eauto |].
  destruct (Hno a s'). reflexivity.
Qed.

(** An empty [hidden_dims] makes [VanillaVAE.__init__] raise [IndexError]
    at the first [hidden_dims[-1]], before any [nn.Linear] is created: the
    state of the library is unchanged. *)
Lemma vae_init_empty_hidden_dims in_channels latent_dim encoder decoder kwargs
    (s : St) :
  VanillaVAE_init in_channels latent_dim [] encoder decoder kwargs s
  = (inl (Other IndexError), s).
Proof. reflexivity. Qed.


(** X21. When [VanillaVAE.__init__] returns, [hidden_dims] has a last entry [h],
    three linear layers were created, in this order: [fc_mu] and [fc_var]
    from [4 * h] to [latent_dim] features and [decoder_input] from
    [latent_dim] to [4 * h], and the object has the six attributes
    [latent_dim], [encoder], [fc_mu], [fc_var], [decoder_input] and
    [decoder] and no other. *)
Theorem vae_init_creates_three_linear_layers in_channels latent_dim hidden_dims
    encoder decoder kwargs s self s' :
  VanillaVAE_init in_channels latent_dim hidden_dims encoder decoder kwargs s
    = (inr self, s') ->
  exists h fc_mu s1 fc_var s2 decoder_input,
    last hidden_dims = Some h
    /\ Linear (h * 4) latent_dim s = (inr fc_mu, s1)
    /\ Linear (h * 4) latent_dim s1 = (inr fc_var, s2)
    /\ Linear latent_dim (h * 4) s2 = (inr decoder_input, s')
    /\ Permutation (map_to_list self)
         [("latent_dim", AttrInt latent_dim); ("encoder", AttrModule encoder);
          ("fc_mu", AttrModule fc_mu); ("fc_var", AttrModule fc_var);
          ("decoder_input", AttrModule decoder_input);
          ("decoder", AttrModule decoder)].
Proof.
  intros (h & fc_mu & s1 & fc_var & s2 & decoder_input
          & Hlast & Hmu & Hvar & Hdec & ->)%VanillaVAE_init_inr.
  exists h, fc_mu, s1, fc_var, s2, decoder_input.
  repeat (split; [assumption |]).
  unfold constructed, object. rewrite map_to_list_to_map.
  - apply NoDup_Permutation.
    + apply NoDup_fmap_1 with (f := fst). simpl. compute_done.
    + apply NoDup_fmap_1 with (f := fst). simpl. compute_done.
    + intros x. rewrite !elem_of_cons, !elem_of_nil. tauto.
  - simpl. compute_done.
Qed.

(** X22. On an object as [VanillaVAE.__init__] leaves it, [decode] never
    returns. It calls [decoder_input], [view(-1, 512, 2, 2)] and [decoder];
    when all three return it raises [AttributeError] for
    [self.final_layer], an attribute that the constructor does not set. *)
Theorem decode_never_returns in_channels latent_dim hidden_dims encoder decoder
    kwargs s0 self s1 :
  VanillaVAE_init in_channels latent_dim hidden_dims encoder decoder kwargs s0
    = (inr self, s1) ->
  exists decoder_input,
    self !! "decoder_input" = Some (AttrModule decoder_input)
    /\ (forall z s, exists e s', decode self z s = (inl e, s'))
    /\ (forall z s r1 s2 r2 s3 r3 s4,
          module_forward decoder_input z s = (inr r1, s2) ->
          tensor_view r1 [-1; 512; 2; 2]%Z s2 = (inr r2, s3) ->
          module_forward decoder r2 s3 = (inr r3, s4) ->
          decode self z s = (inl (AttributeError "final_layer"), s4)).
Proof.
  intros (h & fc_mu & s1' & fc_var & s2' & decoder_input
          & _ & _ & _ & _ & ->)%VanillaVAE_init_inr.
  exists decoder_input. split; [apply constructed_decoder_input |]. split.
  - intros z s. apply raises_or_returns. intros r s'.
    apply decode_needs_final_layer, constructed_final_layer.
  - intros z s r1 s2 r2 s3 r3 s4 H1 H2 H3. unfold decode, getattr.
    rewrite constructed_decoder_input, constructed_decoder, constructed_final_layer.
    apply lift_inr in H1, H2, H3.
    rewrite (veff_bind_returns _ _ s (AttrModule decoder_input) s) by reflexivity.
    rewrite (veff_bind_returns _ _ s r1 s2) by exact H1.
    rewrite (veff_bind_returns _ _ s2 r2 s3) by exact H2.
    rewrite (veff_bind_returns _ _ s3 (AttrModule decoder) s3) by reflexivity.
    rewrite (veff_bind_returns _ _ s3 r3 s4) by exact H3.
    reflexivity.
Qed.

(** X23. On an object as [VanillaVAE.__init__] leaves it, none of [forward],
    [sample] and [generate] returns: each ends in a call of [decode], if it
    gets that far. *)
Theorem forward_sample_generate_never_return in_channels latent_dim hidden_dims
    encoder decoder kwargs s0 self s1 :
  VanillaVAE_init in_channels latent_dim hidden_dims encoder decoder kwargs s0
    = (inr self, s1) ->
  (forall x s, exists e s', VanillaVAE_forward self x s = (inl e, s'))
  /\ (forall num_samples current_device s,
        exists e s', sample self num_samples current_device s = (inl e, s'))
  /\ (forall x s, exists e s', generate self x s = (inl e, s')).
Proof.
  intros (h & fc_mu & s1' & fc_var & s2' & decoder_input
          & _ & _ & _ & _ & ->)%VanillaVAE_init_inr.
  pose proof (constructed_final_layer latent_dim encoder decoder fc_mu fc_var
                decoder_input) as Hnone.
  assert (Hforward : forall x s r s',
            VanillaVAE_forward
              (constructed latent_dim encoder decoder fc_mu fc_var decoder_input) x s
            <> (inr r, s')).
  { intros x s r s' Hrun. unfold VanillaVAE_forward in Hrun.
    apply veff_bind_inr in Hrun as (codes & s2 & _ & Hrun).
    destruct codes as [| mu [| log_var [| ? ?]]]; try discriminate Hrun.
    apply veff_bind_inr in Hrun as (z & s3 & _ & Hrun).
    apply veff_bind_inr in Hrun as (d & s4 & Hdecode & _).
    exact (decode_needs_final_layer _ _ _ _ _ Hnone Hdecode). }
  split; [| split].
  - intros x s. apply raises_or_returns, Hforward.
  - intros num_samples current_device s. apply raises_or_returns.
    intros r s' Hrun. unfold sample in Hrun.
    apply veff_bind_inr in Hrun as ([] & s2 & _ & Hrun).
    apply veff_bind_inr in Hrun as (d & s3 & _ & Hrun).
    apply veff_bind_inr in Hrun as (z & s4 & _ & Hrun).
    apply veff_bind_inr in Hrun as (z' & s5 & _ & Hrun).
    apply veff_bind_inr in Hrun as (samples & s6 & Hdecode & _).
    exact (decode_needs_final_layer _ _ _ _ _ Hnone Hdecode).
  - intros x s. apply raises_or_returns.
    intros r s' Hrun. unfold generate in Hrun.
    apply veff_bind_inr in Hrun as (outputs & s2 & Hrun & _).
    exact (Hforward _ _ _ _ Hrun).
Qed.

(** X24. [loss_function] never returns, on any object and for any arguments: it
    raises [IndexError] with fewer than four positional arguments,
    otherwise [KeyError] when there is no keyword argument [M_N], and
    otherwise [NameError], because the module binds no name [F]. No tensor
    operation has run by then. *)
Theorem loss_function_always_raises (self : @object M) args kwargs (s : St) :
  loss_function self args kwargs s
  = (inl (if bool_decide (length args < 4) then Other IndexError
          else match kwargs !! "M_N" with
               | None => KeyError "M_N"
               | Some _ => NameError "F"
               end), s).
Proof.
  unfold loss_function. rewrite load_global_F.
  destruct args as [| a0 [| a1 [| a2 [| a3 rest]]]]; try reflexivity.
  rewrite bool_decide_eq_false_2 by (simpl; lia).
  unfold veff_bind, py_item, py_getitem. simpl.
  destruct (kwargs !! "M_N"); reflexivity.
Qed.

End VAEProperties.

(** The theorem at [latent_dim = 16] and [hidden_dims = [32; 512]]. *)
Lemma vae_init_creates_three_linear_layers_witness :
  VanillaVAE_init (torch := example_torch) 3 16 [32; 512]%Z (1, 1)%Z (2, 2)%Z empty 0
    = (inr example_vae, 3)
  /\ Permutation (map_to_list example_vae)
       [("latent_dim", AttrInt 16); ("encoder", AttrModule (1, 1)%Z);
        ("fc_mu", AttrModule (2048, 16)%Z); ("fc_var", AttrModule (2048, 16)%Z);
        ("decoder_input", AttrModule (16, 2048)%Z);
        ("decoder", AttrModule (2, 2)%Z)].
Proof.
  split; [reflexivity |].
  edestruct (vae_init_creates_three_linear_layers (torch := example_torch)
               3 16 [32; 512]%Z (1, 1)%Z (2, 2)%Z empty 0 example_vae 3)
    as (h & fc_mu & s1 & fc_var & s2 & decoder_input
        & Hlast & Hmu & Hvar & Hdec & Hattrs); [reflexivity |].
  injection Hlast as <-.
  vm_compute in Hmu. injection Hmu as <- <-.
  vm_compute in Hvar. injection Hvar as <- <-.
  vm_compute in Hdec. injection Hdec as <-.
  exact Hattrs.
Defined.

(** The theorem at the same object: [decode] raises [AttributeError] after
    the three calls. *)
Lemma decode_never_returns_witness :
  VanillaVAE_init (torch := example_torch) 3 16 [32; 512]%Z (1, 1)%Z (2, 2)%Z empty 0
    = (inr example_vae, 3)
  /\ decode (torch := example_torch) example_vae 5%Z 3
     = (inl (AttributeError "final_layer"), 3).
Proof.
  split; [reflexivity |].
  edestruct (decode_never_returns (torch := example_torch)
               3 16 [32; 512]%Z (1, 1)%Z (2, 2)%Z empty 0 example_vae 3)
    as (decoder_input & Hin & _ & Hraises); [reflexivity |].
  eapply Hraises; reflexivity.
Defined.

(** The theorem at the same object. *)
Lemma forward_sample_generate_never_return_witness :
  VanillaVAE_init (torch := example_torch) 3 16 [32; 512]%Z (1, 1)%Z (2, 2)%Z empty 0
    = (inr example_vae, 3)
  /\ (exists e s',
        VanillaVAE_forward (torch := example_torch) example_vae 5%Z 3 = (inl e, s'))
  /\ (exists e s', sample (torch := example_torch) example_vae 4 0 3 = (inl e, s'))
  /\ (exists e s', generate (torch := example_torch) example_vae 5%Z 3 = (inl e, s')).
Proof.
  split; [reflexivity |].
  edestruct (forward_sample_generate_never_return (torch := example_torch)
               3 16 [32; 512]%Z (1, 1)%Z (2, 2)%Z empty 0 example_vae 3)
    as (Hforward & Hsample & Hgenerate); [reflexivity |].
  split; [apply Hforward | split; [apply Hsample | apply Hgenerate]].
Defined.
